(** * browser_agent: the action executor and the credential pass of [main.py]

    A shallow embedding of [execute_actions] and of the credential
    substitution loop of [interact], with the browser driver as an explicit
    environment.  Every awaited Playwright call is an [op]; the environment
    answers each call from the history of the calls made so far, either with
    a value or with the message of the exception it raises.  The executor is
    a function in a history-and-exception monad, so that both its result and
    the sequence of browser calls it makes can be stated and evaluated. *)

From Stdlib Require Import ZArith Ascii String.
From stdpp Require Import base option list strings gmap.

Local Open Scope Z_scope.

(** ** Values decoded from JSON

    [json.loads] yields dicts, lists, strings, integers, booleans and [None].
    Numbers are the integers here; the plan's numeric fields ([index],
    [timeout], [pixels]) are integer literals in the interpreter's schema. *)

#[local] Unset Elimination Schemes.
Inductive jval :=
| JNull
| JBool (b : bool)
| JInt (n : Z)
| JStr (s : string)
| JArr (l : list jval)
| JObj (l : list (string * jval)).
#[local] Set Elimination Schemes.

(** An action is a Python dict with string keys. *)
Abbreviation action := (gmap string jval).

(** [v == "lit"] for a decoded value [v] and a string literal. *)
Definition is_str (v : jval) (lit : string) : bool :=
  match v with
  | JStr s => String.eqb s lit
  | _ => false
  end.

(** [type(v).__name__], as it appears in a [TypeError] message. *)
Definition py_type_name (v : jval) : string :=
  match v with
  | JNull => "NoneType"
  | JBool _ => "bool"
  | JInt _ => "int"
  | JStr _ => "str"
  | JArr _ => "list"
  | JObj _ => "dict"
  end.

(** ** Exceptions *)

Inductive exn :=
| KeyError (key : string)
| TypeError (msg : string)
| IndexError (msg : string)
| AttributeError (msg : string)
| PyException (msg : string)
| HTTPException (status_code : Z) (detail : string)
| DriverError (msg : string).

(** ** Browser driver calls *)

Definition handle := nat.
Definition bytes := string.

Inductive op :=
| OStart                                    (* async_playwright().__aenter__ *)
| OLaunch                                   (* p.chromium.launch(...) *)
| ONewContext                               (* browser.new_context(...) *)
| ONewPage                                  (* context.new_page() *)
| OGoto (url : jval) (wait_until : string) (timeout : option Z)
| OWaitForLoadState (state : string) (timeout : Z)
| OWaitForSelector (selector : jval) (state : option string) (timeout : Z)
| OClick (selector : jval)
| OFill (selector value : jval)
| OPress (selector key : jval)
| OWaitForTimeout (timeout : jval)
| OEvaluate (script : string)
| OQuerySelectorAll (selector : string)
| OScrollIntoView (el : handle)
| OQuerySelector (el : handle) (selector : string)
| OGetAttribute (el : handle) (name : string)
| OElemEvaluate (el : handle) (script : string)
| OScreenshot (type : option string) (full_page : bool)
| OSleep (seconds : Z)                      (* asyncio.sleep *)
| OContextClose
| OBrowserClose
| OStop.                                    (* async_playwright().__aexit__ *)

(** What a call returns when it does not raise. *)
Definition ret_ty (o : op) : Type :=
  match o with
  | OQuerySelectorAll _ => list handle
  | OQuerySelector _ _ => option handle
  | OGetAttribute _ _ => option string
  | OScreenshot _ _ => bytes
  | _ => unit
  end.

(** One entry of the call history: the call and whether it returned. *)
Record event := Ev { ev_op : op; ev_ok : bool }.

Abbreviation history := (list event).

(** The driver: given the calls made so far, a call either raises (the
    exception's message) or returns a value of its type. *)
Definition driver := history → ∀ o : op, string + ret_ty o.

(** ** Results *)

Record button_state := ButtonState {
  aria_pressed : string;
  aria_label : string;
  classes : string
}.

Inductive like_debug :=
| DebugStates (before after : button_state)
| DebugError (error : string) (screenshot : option string).

(** The dict returned by the [like_post] handler. *)
Record like_result := LikeResult {
  lr_success : bool;
  lr_message : string;
  lr_debug : like_debug
}.

(** The per-action dict appended to [results["steps"]]. *)
Record step_result := StepResult {
  sr_action : action;
  sr_success : bool;
  sr_error : option string;
  sr_screenshot : option string
}.

Record AutomationResponse := MkResponse {
  success : bool;
  message : string;
  data : option (list step_result);       (* {"steps": [...]} *)
  screenshot : option string
}.

(** [execute_actions] returns an [AutomationResponse], or the handler's own
    dict when a [like_post] action is met. *)
Inductive exec_result :=
| RModel (r : AutomationResponse)
| RDict (r : like_result).

(** ** The history-and-exception monad *)

Definition M (A : Type) : Type := history → history * (exn + A).

Definition ret {A} (x : A) : M A := λ h, (h, inr x).

Definition raise {A} (e : exn) : M A := λ h, (h, inl e).

Definition bind {A B} (m : M A) (k : A → M B) : M B :=
  λ h, match m h with
       | (h', inl e) => (h', inl e)
       | (h', inr x) => k x h'
       end.

(** [try: m except Exception as e: handler e] *)
Definition try_except {A} (m : M A) (handler : exn → M A) : M A :=
  λ h, match m h with
       | (h', inl e) => handler e h'
       | (h', inr x) => (h', inr x)
       end.

(** [try: m finally: fin]: [fin] always runs; if it raises, its exception
    replaces the outcome of [m]. *)
Definition finally_ {A} (m : M A) (fin : M unit) : M A :=
  λ h, match m h with
       | (h1, r) => match fin h1 with
                    | (h2, inl e) => (h2, inl e)
                    | (h2, inr _) => (h2, r)
                    end
       end.

Declare Scope exec_scope.
Delimit Scope exec_scope with exec.
Notation "x <- m ;; k" := (bind m (λ x, k))
  (at level 100, m at next level, right associativity) : exec_scope.
Notation "m ;;; k" := (bind m (λ _, k))
  (at level 100, right associativity) : exec_scope.
Local Open Scope exec_scope.

(** [action[key]] *)
Definition getitem (a : action) (key : string) : M jval :=
  match a !! key with
  | Some v => ret v
  | None => raise (KeyError key)
  end.

(** [posts[i]] on a Python list: negative indices count from the end. *)
Definition py_list_get {A} (l : list A) (i : Z) : M A :=
  let n := Z.of_nat (length l) in
  let j := if i <? 0 then i + n else i in
  if (0 <=? j) && (j <? n)
  then match l !! Z.to_nat j with
       | Some x => ret x
       | None => raise (IndexError "list index out of range")
       end
  else raise (IndexError "list index out of range").

(** [v - 1] *)
Definition py_minus_1 (v : jval) : M Z :=
  match v with
  | JInt n => ret (n - 1)
  | JBool b => ret ((if b then 1 else 0) - 1)
  | _ => raise (TypeError ("unsupported operand type(s) for -: '"
                           +:+ py_type_name v +:+ "' and 'int'"))
  end.

(** [x or "null"] for the result of [get_attribute]. *)
Definition or_null (x : option string) : string :=
  match x with
  | Some EmptyString | None => "null"
  | Some s => s
  end.

(** The failure test of the like verification, lines 273-274. *)
Definition state_check_fails (current_state new_state : button_state) : bool :=
  String.eqb (aria_pressed new_state) (aria_pressed current_state)
  || String.eqb (aria_label new_state) (aria_label current_state).

Definition feed_selector : string := ".scaffold-finite-scroll__content".
Definition posts_selector : string := "[data-id^='urn:li:activity']".
Definition primary_like_selector : string :=
  "button.react-button__trigger[aria-label^='React'], "
  +:+ "button.social-actions-button, "
  +:+ "button[aria-label*='Like']".
Definition fallback_like_selector : string :=
  "button:has(svg[data-icon*='thumb']), "
  +:+ "button:has(img[alt='like'])".
Definition click_script : string :=
  "btn => { btn.click(); console.log('Like button clicked via JS') }".

Definition is_like_post (a : action) : bool :=
  match a !! "type" with
  | Some t => is_str t "like_post"
  | None => false
  end.

(** The kinds that have a branch in the dispatcher. *)
Definition implemented_kinds : list string :=
  ["navigate"; "click"; "fill"; "press"; "wait"; "scroll"; "login"; "search";
   "like_post"].

Definition is_implemented (t : jval) : bool :=
  existsb (is_str t) implemented_kinds.

(** What the executor takes from its surroundings: the browser driver and
    three library functions. *)
Class Runtime := {
  (** the browser driver *)
  env : driver;
  (** [str(v)], as an f-string formats it *)
  py_str : jval → string;
  (** [str(e)] for [e = HTTPException(status_code, detail)] *)
  http_exception_str : Z → string → string;
  (** [base64.b64encode(b).decode()] *)
  b64encode : bytes → string
}.

Section Executor.

Context {rt : Runtime}.

(** [str(e)] *)
Definition exn_str (e : exn) : string :=
  match e with
  | KeyError k => "'" +:+ k +:+ "'"
  | TypeError m | IndexError m | AttributeError m | PyException m
  | DriverError m => m
  | HTTPException c d => http_exception_str c d
  end.

(** An awaited driver call: consult the driver, log the call. *)
Definition call (o : op) : M (ret_ty o) :=
  λ h, match env h o with
       | inl msg => (h ++ [Ev o false], inl (DriverError msg))
       | inr v => (h ++ [Ev o true], inr v)
       end.

(** [asyncio.sleep(n)] *)
Definition sleep (n : Z) : M unit :=
  λ h, (h ++ [Ev (OSleep n) true], inr tt).

(** The three attributes read from the like button. *)
Definition snapshot (like_button : handle) : M button_state :=
  p <- call (OGetAttribute like_button "aria-pressed") ;;
  l <- call (OGetAttribute like_button "aria-label") ;;
  c <- call (OGetAttribute like_button "class") ;;
  ret (ButtonState (or_null p) (or_null l) (or_null c)).

(** Lines 227-286: the part of the inner [try] that works on the selected
    post. *)
Definition like_on_post (post : handle) : M like_result :=
  call (OScrollIntoView post) ;;;
  call (OWaitForTimeout (JInt 2000)) ;;;
  b1 <- call (OQuerySelector post primary_like_selector) ;;
  like_button <-
    match b1 with
    | Some b => ret b
    | None =>
      b2 <- call (OQuerySelector post fallback_like_selector) ;;
      match b2 with
      | Some b => ret b
      | None => raise (PyException "Like button not found")
      end
    end ;;
  current_state <- snapshot like_button ;;
  call (OElemEvaluate like_button click_script) ;;;
  call (OWaitForTimeout (JInt 3000)) ;;;
  new_state <- snapshot like_button ;;
  if state_check_fails current_state new_state
  then raise (PyException
                "Like action didn't register - button state unchanged")
  else ret (LikeResult true "Successfully liked post"
                       (DebugStates current_state new_state)).

(** The body of the inner [try] of the [like_post] branch, lines 207-286. *)
Definition like_post_try (a : action) : M like_result :=
  call (OWaitForSelector (JStr feed_selector) None 15000) ;;;
  posts <- call (OQuerySelectorAll posts_selector) ;;
  match posts with
  | [] => raise (PyException "No posts found - may need different selectors")
  | _ :: _ =>
    i <- py_minus_1 (default (JInt 1) (a !! "index")) ;;
    let post_index := Z.min i (Z.of_nat (length posts) - 1) in
    post <- py_list_get posts post_index ;;
    like_on_post post
  end.

(** The [like_post] branch, lines 205-297: both paths [return] a dict. *)
Definition like_post (a : action) : M like_result :=
  try_except (like_post_try a)
    (λ e,
      shot <- call (OScreenshot None false) ;;
      ret (LikeResult false (exn_str e)
                      (DebugError (exn_str e) (Some (b64encode shot))))).

(** The [if]/[elif] chain of lines 160-297.  [Some r] is a [return r] out
    of [execute_actions]; [None] falls through to the settle delay. *)
Definition dispatch (a : action) : M (option like_result) :=
  action_type <- getitem a "type" ;;
  if is_str action_type "navigate" then
    url <- getitem a "url" ;;
    call (OGoto url "networkidle" None) ;;;
    ret None
  else if is_str action_type "click" then
    s <- getitem a "selector" ;;
    call (OWaitForSelector s (Some "visible") 10000) ;;;
    s' <- getitem a "selector" ;;
    call (OClick s') ;;;
    ret None
  else if is_str action_type "fill" then
    selector <- getitem a "selector" ;;
    call (OWaitForSelector selector (Some "visible") 10000) ;;;
    text <- getitem a "text" ;;
    call (OFill selector text) ;;;
    ret None
  else if is_str action_type "press" then
    match a !! "selector" with
    | None => raise (PyException "Press action requires a selector parameter")
    | Some _ =>
      s <- getitem a "selector" ;;
      call (OWaitForSelector s (Some "visible") 10000) ;;;
      s' <- getitem a "selector" ;;
      key <- getitem a "key" ;;
      call (OPress s' key) ;;;
      ret None
    end
  else if is_str action_type "wait" then
    t <- getitem a "timeout" ;;
    call (OWaitForTimeout t) ;;;
    ret None
  else if is_str action_type "scroll" then
    pixels <- getitem a "pixels" ;;
    call (OEvaluate ("window.scrollBy(0, " +:+ py_str pixels +:+ ")")) ;;;
    ret None
  else if is_str action_type "login" then
    us <- getitem a "username_selector" ;;
    call (OWaitForSelector us (Some "visible") 10000) ;;;
    us' <- getitem a "username_selector" ;;
    u <- getitem a "username" ;;
    call (OFill us' u) ;;;
    ps <- getitem a "password_selector" ;;
    call (OWaitForSelector ps (Some "visible") 10000) ;;;
    ps' <- getitem a "password_selector" ;;
    p <- getitem a "password" ;;
    call (OFill ps' p) ;;;
    ss <- getitem a "submit_selector" ;;
    call (OWaitForSelector ss (Some "visible") 10000) ;;;
    ss' <- getitem a "submit_selector" ;;
    call (OClick ss') ;;;
    ret None
  else if is_str action_type "search" then
    s <- getitem a "search_selector" ;;
    call (OWaitForSelector s (Some "visible") 10000) ;;;
    s' <- getitem a "search_selector" ;;
    q <- getitem a "query" ;;
    call (OFill s' q) ;;;
    sub <- getitem a "submit_selector" ;;
    call (OClick sub) ;;;
    ret None
  else if is_str action_type "like_post" then
    r <- like_post a ;;
    ret (Some r)
  else
    ret None.

(** The settle delay after every dispatched action, line 300. *)
Definition settle : op := OWaitForTimeout (JInt 1000).

(** One iteration of the loop, lines 157-313: either the [like_post]
    handler returns its dict out of the executor ([inl]), or the
    iteration ends with the step result that is appended ([inr]). *)
Definition exec_step (a : action) : M (like_result + step_result) :=
  try_except
    (r <- dispatch a ;;
     match r with
     | Some lr => ret (inl lr)
     | None =>
       call settle ;;;
       ret (inr (StepResult a true None None))
     end)
    (λ e,
      shot <- try_except
                (b <- call (OScreenshot (Some "png") false) ;;
                 ret (Some (b64encode b)))
                (λ _, ret None) ;;
      ret (inr (StepResult a false (Some (exn_str e)) shot))).

(** [for action in actions: ...], with [results["steps"]] as accumulator. *)
Fixpoint run_loop (actions : list action) (steps : list step_result)
  : M (like_result + list step_result) :=
  match actions with
  | [] => ret (inr steps)
  | a :: rest =>
    r <- exec_step a ;;
    match r with
    | inl lr => ret (inl lr)
    | inr s => run_loop rest (steps ++ [s])
    end
  end.

(** [if starting_url:] *)
Definition truthy (starting_url : option string) : option string :=
  match starting_url with
  | Some EmptyString | None => None
  | Some u => Some u
  end.

(** Lines 138-152. *)
Definition initial_navigation (starting_url : option string) : M unit :=
  match truthy starting_url with
  | None => ret tt
  | Some u =>
    try_except
      (call (OGoto (JStr u) "domcontentloaded" (Some 30000)) ;;;
       call (OWaitForLoadState "networkidle" 10000))
      (λ e, raise (HTTPException 500
              ("Failed to navigate to starting URL: " +:+ exn_str e)))
  end.

Definition data_url (b : bytes) : string :=
  "data:image/png;base64," +:+ b64encode b.

(** The body of the outer [try], lines 138-324. *)
Definition try_body (actions : list action) (starting_url : option string)
  : M exec_result :=
  initial_navigation starting_url ;;;
  r <- run_loop actions [] ;;
  match r with
  | inl lr => ret (RDict lr)
  | inr steps =>
    b <- call (OScreenshot (Some "png") true) ;;
    ret (RModel (MkResponse true "Automation completed" (Some steps)
                            (Some (data_url b))))
  end.

(** The outer [except Exception as e], lines 326-341. *)
Definition fatal_handler (e : exn) : M exec_result :=
  let msg := "Automation failed: " +:+ exn_str e in
  try_except
    (b <- call (OScreenshot (Some "png") false) ;;
     ret (RModel (MkResponse false msg None (Some (data_url b)))))
    (λ _, ret (RModel (MkResponse false msg None None))).

(** The [finally] block, lines 342-346. *)
Definition teardown : M unit :=
  sleep 1 ;;;
  call OContextClose ;;;
  call OBrowserClose.

(** [execute_actions], lines 113-346. *)
Definition execute_actions (actions : list action)
    (starting_url : option string) : M exec_result :=
  call OStart ;;;
  finally_
    (call OLaunch ;;;
     call ONewContext ;;;
     call ONewPage ;;;
     finally_ (try_except (try_body actions starting_url) fatal_handler)
              teardown)
    (call OStop).

End Executor.

(** ** Credential substitution, lines 362-374 of [interact] *)

Definition lower_ascii (c : ascii) : ascii :=
  let n := nat_of_ascii c in
  if (65 <=? n)%nat && (n <=? 90)%nat then ascii_of_nat (n + 32) else c.

(** [s.lower()], on the ASCII letters of a byte string. *)
Fixpoint lower (s : string) : string :=
  match s with
  | EmptyString => EmptyString
  | String c r => String (lower_ascii c) (lower r)
  end.

(** [needle in hay] *)
Fixpoint contains (needle hay : string) : bool :=
  String.prefix needle hay
  || match hay with
     | EmptyString => false
     | String _ r => contains needle r
     end.

(** ["text" in action and action["text"] == lit] *)
Definition text_is (a : action) (lit : string) : bool :=
  match a !! "text" with
  | Some t => is_str t lit
  | None => false
  end.

(** [request.credentials.get(key, "")] *)
Definition cred (credentials : gmap string jval) (key : string) : jval :=
  default (JStr "") (credentials !! key).

(** The body of the loop of lines 363-374, on one action. *)
Definition substitute_action (credentials : gmap string jval) (a : action)
  : exn + action :=
  match a !! "type" with
  | None => inl (KeyError "type")
  | Some ty =>
    if is_str ty "fill" then
      if text_is a "YOUR_USERNAME" then
        inr (<["text" := cred credentials "username"]> a)
      else
        match a !! "selector" with
        | None => inl (KeyError "selector")
        | Some (JStr sel) =>
          if contains "password" (lower sel) || text_is a "YOUR_PASSWORD"
          then inr (<["text" := cred credentials "password"]> a)
          else inr a
        | Some v =>
          inl (AttributeError ("'" +:+ py_type_name v
                               +:+ "' object has no attribute 'lower'"))
        end
    else if is_str ty "login"
            && bool_decide (is_Some (a !! "username_selector")) then
      inr (<["password" := cred credentials "password"]>
             (<["username" := cred credentials "username"]> a))
    else inr a
  end.

(** [for action in actions_data["actions"]: ...]; the first exception ends
    the pass. *)
Fixpoint substitute_all (credentials : gmap string jval)
    (actions : list action) : exn + list action :=
  match actions with
  | [] => inr []
  | a :: rest =>
    match substitute_action credentials a with
    | inl e => inl e
    | inr a' =>
      match substitute_all credentials rest with
      | inl e => inl e
      | inr rest' => inr (a' :: rest')
      end
    end
  end.

(** [if request.credentials: ...]: [None] and the empty dict are falsy. *)
Definition substitute_credentials (credentials : option (gmap string jval))
    (actions : list action) : exn + list action :=
  match credentials with
  | Some c => if bool_decide (size c = 0%nat) then inr actions
              else substitute_all c actions
  | None => inr actions
  end.

(** ** Conditions on the driver *)

(** The calls that open and close the session. *)
Definition session_op (o : op) : bool :=
  match o with
  | OStart | OLaunch | ONewContext | ONewPage
  | OContextClose | OBrowserClose | OStop => true
  | _ => false
  end.

(** The two calls of the initial navigation, lines 141-146. *)
Definition start_goto (u : string) : op :=
  OGoto (JStr u) "domcontentloaded" (Some 30000).
Definition start_idle : op := OWaitForLoadState "networkidle" 10000.

Definition start_nav_op (o : op) : bool :=
  match o with
  | OGoto (JStr _) wait_until (Some 30000) =>
    String.eqb wait_until "domcontentloaded"
  | OWaitForLoadState state 10000 => String.eqb state "networkidle"
  | _ => false
  end.

(** The full-page screenshot of line 316. *)
Definition final_shot : op := OScreenshot (Some "png") true.
Definition final_shot_op (o : op) : bool :=
  match o with
  | OScreenshot (Some t) true => String.eqb t "png"
  | _ => false
  end.

(** The diagnostic screenshot of the failure path of [like_post], line 295. *)
Definition like_shot_op (o : op) : bool :=
  match o with
  | OScreenshot None false => true
  | _ => false
  end.

(** The diagnostic screenshot of lines 308 and 330. *)
Definition step_shot : op := OScreenshot (Some "png") false.

(** The driver never raises on the calls selected by [P]. *)
Definition never_raises `{rt : Runtime} (P : op → bool) : Prop :=
  ∀ h o, P o = true → ∃ v, env h o = inr v.

(** No request-level failure: the session opens and closes, the initial
    navigation and the final screenshot go through. *)
Definition no_fatal_error `{rt : Runtime} : Prop :=
  never_raises (λ o, session_op o || start_nav_op o || final_shot_op o).

(** The history once the page is open, and the events of the teardown. *)
Definition session_open : history :=
  [Ev OStart true; Ev OLaunch true; Ev ONewContext true; Ev ONewPage true].
Definition session_close : history :=
  [Ev (OSleep 1) true; Ev OContextClose true; Ev OBrowserClose true;
   Ev OStop true].

(** The message of the exception raised inside the [try] of lines 140-146,
    if there is one. *)
Definition nav_failure `{rt : Runtime} (h : history) (u : string)
  : option string :=
  match env h (start_goto u) with
  | inl msg => Some msg
  | inr _ =>
    match env (h ++ [Ev (start_goto u) true]) start_idle with
    | inl msg => Some msg
    | inr _ => None
    end
  end.

(** A computation that can only fall through to the settle delay. *)
Definition only_none {A} (m : M (option A)) : Prop :=
  ∀ h h' r, m h = (h', inr r) → r = None.

(** ** Sample drivers, plans and credentials *)

Module Sample.

(** Has the like button been clicked in this history? *)
Definition clicked (h : history) : bool :=
  existsb (λ e, match ev_op e with OElemEvaluate _ _ => true | _ => false end) h.

(** Has a screenshot been attempted in this history? *)
Definition shot_attempted (h : history) : bool :=
  existsb (λ e, match ev_op e with OScreenshot _ _ => true | _ => false end) h.

(** A scripted driver: [raises] selects the calls that fail; the feed
    holds [posts]; the like button is element 10, its pressed flag turns
    from "false" to "true" on the click and its label from "React Like"
    to [label_after]. *)
Definition scripted (raises : history → op → option string)
    (posts : list handle) (label_after : string) : driver :=
  λ h o,
    match raises h o with
    | Some msg => inl msg
    | None =>
      match o return string + ret_ty o with
      | OQuerySelectorAll _ => inr posts
      | OQuerySelector _ _ => inr (Some 10%nat)
      | OGetAttribute _ name =>
        inr (if String.eqb name "aria-pressed"
             then Some (if clicked h then "true" else "false")
             else if String.eqb name "aria-label"
             then Some (if clicked h then label_after else "React Like")
             else None)
      | OScreenshot _ _ => inr "PNG"
      | _ => inr tt
      end
    end.

Definition runtime (d : driver) : Runtime :=
  {| env := d;
     py_str := λ v, match v with JStr s => s | _ => "100" end;
     http_exception_str := λ _ detail, detail;
     b64encode := λ b, b |}.

Definition nothing_raises : history → op → option string := λ _ _, None.

Definition click_raises : history → op → option string :=
  λ _ o, match o with
         | OClick _ => Some "Timeout 10000ms exceeded"
         | _ => None
         end.

Definition goto_raises : history → op → option string :=
  λ _ o, match o with
         | OGoto _ _ _ => Some "net::ERR_NAME_NOT_RESOLVED"
         | _ => None
         end.

(** The first screenshot of the session times out, later ones work. *)
Definition first_shot_raises : history → op → option string :=
  λ h o, match o with
         | OScreenshot _ _ =>
           if shot_attempted h then None
           else Some "Timeout 30000ms exceeded"
         | _ => None
         end.

(** The page behaves, and a like changes both attributes. *)
Definition rt_ok : Runtime :=
  runtime (scripted nothing_raises [1; 2; 3]%nat "Unreact Like").
(** Clicks by selector time out. *)
Definition rt_click_fails : Runtime :=
  runtime (scripted click_raises [1; 2; 3]%nat "Unreact Like").
(** The like flips [aria-pressed] and leaves [aria-label] as it was. *)
Definition rt_pressed_only : Runtime :=
  runtime (scripted nothing_raises [1; 2; 3]%nat "React Like").
(** The starting URL cannot be loaded. *)
Definition rt_nav_fails : Runtime :=
  runtime (scripted goto_raises [1; 2; 3]%nat "Unreact Like").
(** The feed is empty and the first screenshot times out. *)
Definition rt_no_posts_flaky_shot : Runtime :=
  runtime (scripted first_shot_raises [] "Unreact Like").

Definition click_x : action :=
  {[ "type" := JStr "click"; "selector" := JStr "#x" ]}.
Definition wait_500 : action :=
  {[ "type" := JStr "wait"; "timeout" := JInt 500 ]}.
Definition press_enter : action :=
  {[ "type" := JStr "press"; "key" := JStr "Enter" ]}.
Definition comment_post : action :=
  {[ "type" := JStr "comment_post"; "index" := JInt 1; "text" := JStr "hi" ]}.
Definition share_post : action :=
  {[ "type" := JStr "share_post"; "index" := JInt 1 ]}.
Definition like_first : action :=
  {[ "type" := JStr "like_post"; "index" := JInt 1 ]}.
Definition like_seventh : action :=
  {[ "type" := JStr "like_post"; "index" := JInt 7 ]}.

Definition fill_user : action :=
  {[ "type" := JStr "fill"; "selector" := JStr "#user";
     "text" := JStr "YOUR_USERNAME" ]}.
Definition fill_pass : action :=
  {[ "type" := JStr "fill"; "selector" := JStr "#pass";
     "text" := JStr "YOUR_PASSWORD" ]}.
(** A username placeholder in a field whose selector names a password. *)
Definition fill_confusing : action :=
  {[ "type" := JStr "fill"; "selector" := JStr "input[name='Password']";
     "text" := JStr "YOUR_USERNAME" ]}.
Definition fill_by_selector : action :=
  {[ "type" := JStr "fill"; "selector" := JStr "input[name='session_PASSWORD']";
     "text" := JStr "secret?" ]}.

Definition creds_up : gmap string jval :=
  {[ "username" := JStr "u"; "password" := JStr "p" ]}.

Definition start_url : string := "https://www.linkedin.com/feed/".

(** A failing click, a wait and a kind without handler. *)
Definition plan_mixed : list action := [click_x; wait_500; comment_post].
(** A like in the middle of a plan. *)
Definition plan_like_then_wait : list action := [like_first; wait_500].
(** A login form filled from placeholders. *)
Definition plan_login : list action := [fill_user; click_x; fill_pass].
Definition plan_login_done : list action :=
  [<["text" := JStr "u"]> fill_user; click_x; <["text" := JStr "p"]> fill_pass].
Definition plan_confusing : list action := [fill_confusing; fill_by_selector].
Definition plan_confusing_done : list action :=
  [<["text" := JStr "u"]> fill_confusing;
   <["text" := JStr "p"]> fill_by_selector].

Definition unchanged_message : string :=
  "Like action didn't register - button state unchanged".

End Sample.

(** ** Properties of traces and step results *)

(** The calls made on the page, as opposed to those that open and close the
    session and to the pause of the teardown. *)
Definition page_op (o : op) : bool :=
  negb (session_op o) && match o with OSleep _ => false | _ => true end.

(** [m] only appends to the history, and only calls selected by [P]. *)
Definition emits {A} (P : op → bool) (m : M A) : Prop :=
  ∀ h h' r, m h = (h', r) →
            ∃ t, h' = h ++ t ∧ Forall (λ e, P (ev_op e) = true) t.

(** A step result is either a success without error and screenshot, or a
    failure with its error message. *)
Definition step_ok (s : step_result) : Prop :=
  if sr_success s then sr_error s = None ∧ sr_screenshot s = None
  else is_Some (sr_error s).

(** The first key each handler reads after [type], lines 163-203. *)
Definition first_keys : list (string * string) :=
  [("navigate", "url"); ("click", "selector"); ("fill", "selector");
   ("wait", "timeout"); ("scroll", "pixels");
   ("login", "username_selector"); ("search", "search_selector")].

(** The kinds that wait for [selector] to be visible before they act. *)
Definition selector_kinds : list string := ["click"; "fill"; "press"].

Definition wait_visible (s : jval) : op :=
  OWaitForSelector s (Some "visible") 10000.
Definition wait_feed : op := OWaitForSelector (JStr feed_selector) None 15000.
Definition find_posts : op := OQuerySelectorAll posts_selector.
Definition like_shot : op := OScreenshot None false.

(** ** The endpoint: [interpret_command] and [interact] *)

(** What [interact] looks at in the value returned by [json.loads]: whether
    it is a dict, its [starting_url] (a string when present) and its
    [actions] (a list of dicts when present). *)
Inductive interpreted :=
| NotADict
| PlanDict (starting_url : option string) (actions : option (list action)).

(** The outcome of a library call inside the [try] of [interpret_command]:
    it raises [json.JSONDecodeError], raises another exception, or returns. *)
Inductive outcome (A : Type) :=
| DecodeError
| OtherError
| Returned (x : A).
Arguments DecodeError {A}.
Arguments OtherError {A}.
Arguments Returned {A} x.

(** What [interpret_command] takes from its surroundings. *)
Class Interpreter := {
  (** [client.chat.completions.create(...)] on the user's text, followed by
      [.choices[0].message.content] (which may be [None]) *)
  chat_completion : string → outcome (option string);
  (** [s.strip()] *)
  py_strip : string → string;
  (** [json.loads(s)] *)
  json_loads : string → outcome interpreted
}.

(** [re.sub(r'```json|```', '', s)] scans [s] from the left; at a position
    where the pattern matches (the first alternative is tried first) the
    match is dropped and the scan resumes behind it.  [skip] counts the
    characters of the current match that are still to be dropped. *)
Fixpoint remove_fences_from (skip : nat) (s : string) : string :=
  match s with
  | EmptyString => EmptyString
  | String c rest =>
    match skip with
    | S k => remove_fences_from k rest
    | O =>
      if String.prefix "```json" s then remove_fences_from 6 rest
      else if String.prefix "```" s then remove_fences_from 2 rest
      else String c (remove_fences_from 0 rest)
    end
  end.

Definition remove_fences (s : string) : string := remove_fences_from 0 s.

Record CommandRequest := {
  command : string;
  url : option string;
  max_steps : option Z;
  credentials : option (gmap string jval)
}.

(** A pure result as a computation that makes no driver call. *)
Definition lift_result {A} (r : exn + A) : M A := λ h, (h, r).

Section Endpoint.

Context {rt : Runtime} {ip : Interpreter}.

(** [interpret_command], lines 55-111. *)
Definition interpret_command (natural_language : string) : exn + interpreted :=
  let parse_failed := HTTPException 500 "Failed to parse command response" in
  let failed := HTTPException 500 "Command interpretation failed" in
  match chat_completion natural_language with
  | DecodeError => inl parse_failed
  | OtherError => inl failed
  | Returned None => inl failed        (* [re.sub] on [None]: [TypeError] *)
  | Returned (Some response_content) =>
    let json_str := py_strip (remove_fences response_content) in
    match json_loads json_str with
    | DecodeError => inl parse_failed
    | OtherError => inl failed
    | Returned actions_data => inr actions_data
    end
  end.

(** The body of the [try] of [interact], lines 352-376. *)
Definition interact_try (request : CommandRequest) : M exec_result :=
  actions_data <- lift_result (interpret_command (command request)) ;;
  match actions_data with
  | PlanDict plan_url (Some actions) =>
    let starting_url :=
      match truthy (url request) with
      | Some u => Some u
      | None => plan_url
      end in
    actions' <- lift_result
                  (substitute_credentials (credentials request) actions) ;;
    execute_actions actions' starting_url
  | _ => raise (HTTPException 400 "Invalid actions format")
  end.

(** [interact], lines 349-382: an [HTTPException] is raised again, any
    other exception becomes an [HTTPException] with status 500. *)
Definition interact (request : CommandRequest) : M exec_result :=
  try_except (interact_try request)
    (λ e, match e with
          | HTTPException _ _ => raise e
          | _ => raise (HTTPException 500 (exn_str e))
          end).

End Endpoint.

(** The two forms of the dict returned by [like_post]: the success dict with
    two snapshots that differ in pressed flag and in label, or the failure
    dict whose debug error repeats the message and carries a screenshot. *)
Definition like_shape (lr : like_result) : Prop :=
  (∃ cur new,
      lr = LikeResult true "Successfully liked post" (DebugStates cur new)
      ∧ aria_pressed new ≠ aria_pressed cur
      ∧ aria_label new ≠ aria_label cur)
  ∨ (∃ shot,
        lr_success lr = false
        ∧ lr_debug lr = DebugError (lr_message lr) (Some shot)).

(** ** Further sample drivers, plans and interpreters *)

Module Scenario.

Import Sample.

Definition launch_raises : history → op → option string :=
  λ _ o, match o with
         | OLaunch => Some "Executable doesn't exist"
         | _ => None
         end.

Definition context_close_raises : history → op → option string :=
  λ _ o, match o with
         | OContextClose => Some "Connection closed"
         | _ => None
         end.

Definition visible_wait_raises : history → op → option string :=
  λ _ o, match o with
         | OWaitForSelector _ (Some _) _ => Some "Timeout 10000ms exceeded"
         | _ => None
         end.

Definition full_page_shot_raises : history → op → option string :=
  λ _ o, match o with
         | OScreenshot _ true => Some "Page is too large"
         | _ => None
         end.

(** The browser cannot be launched. *)
Definition rt_launch_fails : Runtime :=
  runtime (scripted launch_raises [1; 2; 3]%nat "Unreact Like").
(** Closing the context raises. *)
Definition rt_close_fails : Runtime :=
  runtime (scripted context_close_raises [1; 2; 3]%nat "Unreact Like").
(** No element ever becomes visible. *)
Definition rt_never_visible : Runtime :=
  runtime (scripted visible_wait_raises [1; 2; 3]%nat "Unreact Like").
(** The full-page screenshot raises. *)
Definition rt_final_shot_fails : Runtime :=
  runtime (scripted full_page_shot_raises [1; 2; 3]%nat "Unreact Like").
(** The feed is there but holds no post. *)
Definition rt_empty_feed : Runtime :=
  runtime (scripted nothing_raises [] "Unreact Like").
(** No selector finds a like button. *)
Definition rt_no_button : Runtime :=
  runtime (λ h o,
    match o return string + ret_ty o with
    | OQuerySelectorAll _ => inr [1; 2; 3]%nat
    | OQuerySelector _ _ => inr None
    | OGetAttribute _ _ => inr None
    | OScreenshot _ _ => inr "PNG"
    | _ => inr tt
    end).

Definition click_nothing : action := {[ "type" := JStr "click" ]}.
Definition like_default : action := {[ "type" := JStr "like_post" ]}.
Definition like_zero : action :=
  {[ "type" := JStr "like_post"; "index" := JInt 0 ]}.
Definition like_far_below : action :=
  {[ "type" := JStr "like_post"; "index" := JInt (-3) ]}.
Definition like_named : action :=
  {[ "type" := JStr "like_post"; "index" := JStr "first" ]}.
Definition login_form : action :=
  {[ "type" := JStr "login"; "username_selector" := JStr "#user";
     "password_selector" := JStr "#pass"; "submit_selector" := JStr "#go" ]}.
Definition login_form_done : action :=
  <["password" := JStr "p"]> (<["username" := JStr "u"]> login_form).
Definition scroll_down : action :=
  {[ "type" := JStr "scroll"; "pixels" := JInt 400 ]}.
Definition no_type : action := {[ "selector" := JStr "#x" ]}.

Definition plan_click_like : list action := [click_x; like_first].
(** The second action has no [type]. *)
Definition plan_broken : list action := [fill_user; no_type; fill_pass].

Definition feed_found : history :=
  session_open ++ [Ev wait_feed true; Ev find_posts true].

(** The runs of the executor used below. *)
Definition run_mixed : history * (exn + exec_result) :=
  Eval vm_compute in
    @execute_actions rt_click_fails plan_mixed (Some start_url) [].
Definition response_mixed : AutomationResponse :=
  Eval vm_compute in
    match snd run_mixed with
    | inr (RModel r) => r
    | _ => MkResponse false "" None None
    end.
Definition run_click_like : history * (exn + exec_result) :=
  Eval vm_compute in @execute_actions rt_ok plan_click_like None [].
Definition liked : like_result :=
  LikeResult true "Successfully liked post"
    (DebugStates (ButtonState "false" "React Like" "null")
                 (ButtonState "true" "Unreact Like" "null")).
Definition run_launch_fails : history * (exn + exec_result) :=
  Eval vm_compute in @execute_actions rt_launch_fails plan_mixed None [].
Definition run_close_fails : history * (exn + exec_result) :=
  Eval vm_compute in @execute_actions rt_close_fails plan_mixed None [].

(** An interpreter whose model answers with [content] and whose parser
    reads the text "{plan}" as [parsed] and rejects any other text. *)
Definition interpreter (content : option string) (parsed : interpreted)
  : Interpreter :=
  {| chat_completion := λ _, Returned content;
     py_strip := λ s, s;
     json_loads := λ s, if String.eqb s "{plan}" then Returned parsed
                        else DecodeError |}.

Definition fenced_plan : string := "```json{plan}```".

(** The model answers with a fenced login plan. *)
Definition ip_login : Interpreter :=
  interpreter (Some fenced_plan) (PlanDict (Some start_url) (Some plan_login)).
(** The model answers with a JSON list. *)
Definition ip_list : Interpreter := interpreter (Some "{plan}") NotADict.

Definition request_login : CommandRequest :=
  {| command := "log in"; url := Some ""; max_steps := Some 5;
     credentials := Some creds_up |}.

Definition run_login : history * (exn + exec_result) :=
  Eval vm_compute in
    @execute_actions rt_ok plan_login_done (Some start_url) [].
Definition result_login : exec_result :=
  Eval vm_compute in
    match snd run_login with
    | inr r => r
    | inl _ => RModel (MkResponse false "" None None)
    end.

End Scenario.

(** * Facts about the executor *)

Section ExecutorFacts.

Context {rt : Runtime}.

Lemma call_returns h o v :
  env h o = inr v → call o h = (h ++ [Ev o true], inr v).
Proof. intros E. unfold call. now rewrite E. Qed.

Lemma call_raises h o msg :
  env h o = inl msg → call o h = (h ++ [Ev o false], inl (DriverError msg)).
Proof. intros E. unfold call. now rewrite E. Qed.

Lemma call_never_raises P h o :
  never_raises P → P o = true →
  ∃ v, call o h = (h ++ [Ev o true], inr v).
Proof.
  intros HP Ho. destruct (HP h o Ho) as [v E].
  exists v. now apply call_returns.
Qed.

Lemma never_raises_weaken (P Q : op → bool) :
  (∀ o, Q o = true → P o = true) → never_raises P → never_raises Q.
Proof. intros HQ HP h o Ho. apply HP, HQ, Ho. Qed.

Lemma only_none_ret {A} : only_none (ret (@None A)).
Proof. intros h h' r [= _ <-]. reflexivity. Qed.

Lemma only_none_raise {A} e : only_none (@raise (option A) e).
Proof. intros h h' r [=]. Qed.

Lemma only_none_bind {A B} (m : M B) (k : B → M (option A)) :
  (∀ x, only_none (k x)) → only_none (bind m k).
Proof.
  intros Hk h h' r. unfold bind.
  destruct (m h) as [h1 [e|x]]; [intros [=] | apply Hk].
Qed.

Lemma only_none_getitem {A} (a : action) key (k : jval → M (option A)) :
  (∀ v, a !! key = Some v → only_none (k v)) →
  only_none (bind (getitem a key) k).
Proof.
  intros Hk h h' r. unfold bind, getitem.
  destruct (a !! key) as [v|] eqn:E; [now apply Hk | intros [=]].
Qed.

Ltac only_none :=
  repeat first
    [ apply only_none_ret
    | apply only_none_raise
    | apply only_none_bind; intros ?
    | match goal with
      | |- only_none (if ?b then _ else _) => destruct b
      | |- only_none (match ?x with _ => _ end) => destruct x
      end ].

(** Only the [like_post] branch returns out of the executor. *)
Lemma dispatch_falls_through (a : action) :
  is_like_post a = false → only_none (dispatch a).
Proof.
  unfold is_like_post. intros Hl. unfold dispatch.
  apply only_none_getitem. intros ty Hty. rewrite Hty in Hl. rewrite Hl.
  only_none.
Qed.

(** An iteration never raises, and unless the action is a [like_post] it
    ends with a step result for that action. *)
Lemma exec_step_total (a : action) h :
  ∃ h' r, exec_step a h = (h', inr r)
          ∧ (is_like_post a = false → ∃ s, r = inr s ∧ sr_action s = a).
Proof.
  unfold exec_step, try_except.
  match goal with |- context [bind (dispatch a) ?k h] =>
    destruct (bind (dispatch a) k h) as [h1 [e|r]] eqn:E end.
  - unfold bind, try_except, call.
    destruct (env h1 _); simpl; eexists _, _; (split; [reflexivity|]);
      intros _; eexists; split; reflexivity.
  - eexists _, _; split; [reflexivity|]. intros Hl.
    unfold bind in E. destruct (dispatch a h) as [h2 [e|o]] eqn:D; [discriminate|].
    apply dispatch_falls_through in D as ->; [|assumption].
    unfold call, ret in E. destruct (env h2 settle); simplify_eq.
    eexists; split; reflexivity.
Qed.

(** The loop invariant: without a [like_post] the loop runs to the end of
    the list and appends one step result per action, in order. *)
Lemma run_loop_steps (actions : list action) :
  Forall (λ a, is_like_post a = false) actions →
  ∀ steps h, ∃ h' new,
    run_loop actions steps h = (h', inr (inr (steps ++ new)))
    ∧ sr_action <$> new = actions.
Proof.
  induction 1 as [|a rest Ha _ IH]; intros steps h; simpl.
  - exists h, []. now rewrite app_nil_r.
  - destruct (exec_step_total a h) as (h1 & r & E & Hr).
    destruct (Hr Ha) as (s & -> & Hs).
    destruct (IH (steps ++ [s]) h1) as (h2 & new & E2 & Hn).
    exists h2, (s :: new). unfold bind. rewrite E, E2.
    split; [now rewrite <- app_assoc | rewrite fmap_cons; congruence].
Qed.

(** The [except] of line 326 always produces a response. *)
Lemma fatal_handler_total e h :
  ∃ h' r, fatal_handler e h = (h', inr r).
Proof.
  unfold fatal_handler, try_except, bind, call.
  destruct (env h _); eexists _, _; reflexivity.
Qed.

Lemma guarded_body_total actions url h :
  ∃ h' r, try_except (try_body actions url) fatal_handler h = (h', inr r).
Proof.
  unfold try_except. destruct (try_body actions url h) as [h1 [e|r]].
  - apply fatal_handler_total.
  - eexists _, _; reflexivity.
Qed.

(** With a session that opens and closes, the executor returns what the
    guarded body returns, after the teardown. *)
Lemma execute_actions_session actions url h r :
  never_raises session_op →
  try_except (try_body actions url) fatal_handler session_open = (h, r) →
  execute_actions actions url [] = (h ++ session_close, r).
Proof.
  intros S E. unfold execute_actions, teardown, finally_, bind, sleep.
  destruct (call_never_raises _ [] OStart S eq_refl) as [[] ->].
  destruct (call_never_raises _ ([] ++ [Ev OStart true]) OLaunch S eq_refl) as [[] ->].
  destruct (call_never_raises _ (([] ++ [Ev OStart true]) ++ [Ev OLaunch true])
              ONewContext S eq_refl) as [[] ->].
  destruct (call_never_raises _
              ((([] ++ [Ev OStart true]) ++ [Ev OLaunch true]) ++ [Ev ONewContext true])
              ONewPage S eq_refl) as [[] ->].
  change (((([] ++ [Ev OStart true]) ++ [Ev OLaunch true]) ++ [Ev ONewContext true])
            ++ [Ev ONewPage true]) with session_open.
  rewrite E.
  destruct (call_never_raises _ (h ++ [Ev (OSleep 1) true]) OContextClose S eq_refl)
    as [[] ->].
  destruct (call_never_raises _ ((h ++ [Ev (OSleep 1) true]) ++ [Ev OContextClose true])
              OBrowserClose S eq_refl) as [[] ->].
  destruct (call_never_raises _
              (((h ++ [Ev (OSleep 1) true]) ++ [Ev OContextClose true])
                 ++ [Ev OBrowserClose true]) OStop S eq_refl) as [[] ->].
  now rewrite <- !app_assoc.
Qed.

Lemma initial_navigation_returns url h :
  never_raises start_nav_op →
  ∃ h', initial_navigation url h = (h', inr tt).
Proof.
  intros N. unfold initial_navigation.
  destruct (truthy url) as [u|]; [|eexists; reflexivity].
  unfold try_except, bind.
  destruct (call_never_raises _ h (start_goto u) N eq_refl) as [[] E1].
  unfold start_goto in E1. rewrite E1.
  destruct (call_never_raises _ (h ++ [Ev (start_goto u) true]) start_idle N eq_refl)
    as [[] E2].
  unfold start_goto, start_idle in E2. rewrite E2.
  eexists; reflexivity.
Qed.

(** C2: a plan of N actions without [like_post], run without a
    request-level failure, yields a response whose steps are exactly N
    step results, one per action and in the order of the plan, whatever
    the driver does on the calls of the actions themselves (a failing
    dispatch still contributes its step result and the loop goes on). *)
Theorem one_step_result_per_action (actions : list action) url :
  no_fatal_error →
  Forall (λ a, is_like_post a = false) actions →
  ∃ tr steps shot,
    execute_actions actions url [] =
      (tr, inr (RModel (MkResponse true "Automation completed"
                                   (Some steps) (Some shot))))
    ∧ length steps = length actions
    ∧ sr_action <$> steps = actions.
Proof.
  intros F Hl.
  assert (S : never_raises session_op).
  { revert F. apply never_raises_weaken. intros o ->. reflexivity. }
  assert (N : never_raises start_nav_op).
  { revert F. apply never_raises_weaken. intros o ->.
    now rewrite orb_true_r. }
  assert (P : never_raises final_shot_op).
  { revert F. apply never_raises_weaken. intros o ->. apply orb_true_r. }
  destruct (initial_navigation_returns url session_open N) as [h1 E1].
  destruct (run_loop_steps actions Hl [] h1) as (h2 & steps & E2 & Hs).
  destruct (call_never_raises _ h2 final_shot P eq_refl) as [b E3].
  exists (h2 ++ [Ev final_shot true] ++ session_close), steps, (data_url b).
  split; [|split; [|exact Hs]].
  - rewrite app_assoc. apply execute_actions_session; [exact S|].
    unfold try_except, try_body, bind. rewrite E1, E2.
    unfold final_shot in E3. now rewrite E3.
  - now rewrite <- Hs, length_fmap.
Qed.

(** C5: a [press] action without a [selector] key ends its iteration with
    a failed step result whose error is the explicit message of line 177;
    the only driver call made is the diagnostic screenshot, and the loop
    goes on with the rest of the plan. *)
Theorem press_without_selector_fails (a : action) rest steps h :
  a !! "type" = Some (JStr "press") →
  a !! "selector" = None →
  ∃ ok shot,
    let s := StepResult a false
               (Some "Press action requires a selector parameter") shot in
    let h' := h ++ [Ev step_shot ok] in
    exec_step a h = (h', inr (inr s))
    ∧ run_loop (a :: rest) steps h = run_loop rest (steps ++ [s]) h'.
Proof.
  intros Ht Hs.
  assert (E : ∃ ok shot,
    exec_step a h =
      (h ++ [Ev step_shot ok],
       inr (inr (StepResult a false
                   (Some "Press action requires a selector parameter") shot)))).
  { unfold exec_step, try_except, bind, dispatch, getitem, bind, raise.
    rewrite Ht, Hs. cbn. unfold call.
    destruct (env h (OScreenshot (Some "png") false));
      eexists _, _; reflexivity. }
  destruct E as (ok & shot & E). exists ok, shot. cbn zeta.
  split; [exact E|]. cbn [run_loop]. unfold bind at 1. now rewrite E.
Qed.

Lemma unimplemented_kind (t : jval) :
  is_implemented t = false →
  is_str t "navigate" = false ∧ is_str t "click" = false
  ∧ is_str t "fill" = false ∧ is_str t "press" = false
  ∧ is_str t "wait" = false ∧ is_str t "scroll" = false
  ∧ is_str t "login" = false ∧ is_str t "search" = false
  ∧ is_str t "like_post" = false.
Proof.
  unfold is_implemented, implemented_kinds. cbn [existsb].
  rewrite !orb_false_iff. tauto.
Qed.


Lemma py_list_get_last {A} (l : list A) (x : A) h :
  last l = Some x →
  py_list_get l (Z.of_nat (length l) - 1) h = (h, inr x).
Proof.
  intros Hx. unfold py_list_get.
  assert (0 < length l)%nat.
  { destruct l; [discriminate | simpl; lia]. }
  replace (Z.of_nat (length l) - 1 <? 0) with false by lia.
  replace (0 <=? Z.of_nat (length l) - 1) with true by lia.
  replace (Z.of_nat (length l) - 1 <? Z.of_nat (length l)) with true by lia.
  replace (Z.to_nat (Z.of_nat (length l) - 1)) with (pred (length l)) by lia.
  cbn [andb]. now rewrite <- last_lookup, Hx.
Qed.

(** C4: when the feed holds at least one post and the action's 1-based
    [index] is larger than the number of posts, the index computed at
    line 223 is that of the last post, the lookup of line 226 does not
    raise, and the handler carries on with the last post as its target. *)
Theorem like_post_index_clamps (a : action) h (posts : list handle) i :
  let wait_feed := OWaitForSelector (JStr feed_selector) None 15000 in
  let find_posts := OQuerySelectorAll posts_selector in
  env h wait_feed = inr tt →
  env (h ++ [Ev wait_feed true]) find_posts = inr posts →
  posts ≠ [] →
  a !! "index" = Some (JInt i) →
  Z.of_nat (length posts) < i →
  ∃ target,
    last posts = Some target
    ∧ Z.min (i - 1) (Z.of_nat (length posts) - 1) = Z.of_nat (length posts) - 1
    ∧ (∀ h0, py_list_get posts (Z.min (i - 1) (Z.of_nat (length posts) - 1)) h0
             = (h0, inr target))
    ∧ like_post_try a h
      = like_on_post target (h ++ [Ev wait_feed true; Ev find_posts true]).
Proof.
  intros wait_feed find_posts E1 E2 Hne Hi Hlt.
  subst wait_feed find_posts.
  destruct (last posts) as [target|] eqn:Hlast;
    [|now apply last_None in Hlast].
  assert (Hmin : Z.min (i - 1) (Z.of_nat (length posts) - 1)
                 = Z.of_nat (length posts) - 1) by lia.
  exists target. split; [reflexivity|]. split; [exact Hmin|].
  split.
  - intros h0. rewrite Hmin. now apply py_list_get_last.
  - unfold like_post_try, bind.
    rewrite (call_returns _ _ _ E1), (call_returns _ _ _ E2).
    destruct posts as [|p ps]; [congruence|].
    rewrite Hi. cbn [from_option id py_minus_1 ret]. cbv zeta. rewrite Hmin.
    rewrite (py_list_get_last _ _ _ Hlast).
    now rewrite <- app_assoc.
Qed.

Lemma like_post_total (a : action) h :
  never_raises like_shot_op → ∃ h' lr, like_post a h = (h', inr lr).
Proof.
  intros L. unfold like_post, try_except.
  destruct (like_post_try a h) as [h1 [e|r]]; [|eauto].
  unfold bind.
  destruct (call_never_raises _ h1 (OScreenshot None false) L eq_refl) as [b ->].
  eauto.
Qed.

Lemma exec_step_like (a : action) h h' lr :
  is_like_post a = true →
  like_post a h = (h', inr lr) →
  exec_step a h = (h', inr (inl lr)).
Proof.
  unfold is_like_post. destruct (a !! "type") as [ty|] eqn:T; [|discriminate].
  destruct ty as [| | |s| |]; try discriminate. cbn [is_str].
  intros ->%String.eqb_eq E.
  unfold exec_step, try_except, bind, dispatch, getitem, bind.
  rewrite T. cbn. now rewrite E.
Qed.

Lemma run_loop_short_circuit (pre : list action) (a : action) :
  never_raises like_shot_op →
  Forall (λ x, is_like_post x = false) pre →
  is_like_post a = true →
  ∀ steps h, ∃ h1 h2 lr,
    like_post a h1 = (h2, inr lr)
    ∧ ∀ post, run_loop (pre ++ a :: post) steps h = (h2, inr (inl lr)).
Proof.
  intros L Hpre Ha. induction Hpre as [|x pre Hx _ IH]; intros steps h.
  - destruct (like_post_total a h L) as (h2 & lr & E).
    exists h, h2, lr. split; [exact E|]. intros post.
    cbn [app run_loop]. unfold bind.
    now rewrite (exec_step_like _ _ _ _ Ha E).
  - destruct (exec_step_total x h) as (h1 & r & E & Hr).
    destruct (Hr Hx) as (s & -> & _).
    destruct (IH (steps ++ [s]) h1) as (h1' & h2 & lr & El & Hrun).
    exists h1', h2, lr. split; [exact El|]. intros post.
    cbn [app run_loop]. unfold bind. rewrite E. apply Hrun.
Qed.

(** When the session opens, the initial navigation goes through and the
    screenshot of the handler's failure path can be taken, the first
    [like_post] of a plan ends the execution on either path: the
    executor returns the handler's own dict, with no step result for the
    [like_post], right after the handler's last driver call and the
    teardown, whatever actions follow in the plan. *)
Theorem like_post_short_circuits (pre : list action) (a : action) url :
  never_raises (λ o, session_op o || start_nav_op o || like_shot_op o) →
  Forall (λ x, is_like_post x = false) pre →
  is_like_post a = true →
  ∃ h0 h1 lr,
    like_post a h0 = (h1, inr lr)
    ∧ ∀ post, execute_actions (pre ++ a :: post) url []
              = (h1 ++ session_close, inr (RDict lr)).
Proof.
  intros F Hpre Ha.
  assert (S : never_raises session_op).
  { revert F. apply never_raises_weaken. intros o ->. reflexivity. }
  assert (N : never_raises start_nav_op).
  { revert F. apply never_raises_weaken. intros o ->.
    now rewrite orb_true_r. }
  assert (L : never_raises like_shot_op).
  { revert F. apply never_raises_weaken. intros o ->. apply orb_true_r. }
  destruct (initial_navigation_returns url session_open N) as [h E1].
  destruct (run_loop_short_circuit pre a L Hpre Ha [] h)
    as (h0 & h1 & lr & El & Hrun).
  exists h0, h1, lr. split; [exact El|]. intros post.
  apply execute_actions_session; [exact S|].
  unfold try_except, try_body, bind. now rewrite E1, Hrun.
Qed.

(** C6: when the session opens and closes and the initial navigation to a
    non-empty starting URL raises, the executor returns a failure response
    without steps, whose message carries the navigation error; the only
    driver calls between opening and closing the session are those of the
    navigation and one screenshot attempt, and the response holds that
    screenshot exactly when the attempt returned. *)
Theorem initial_navigation_failure_aborts (actions : list action) u msg :
  never_raises session_op →
  u ≠ "" →
  nav_failure session_open u = Some msg →
  ∃ nav ok shot,
    execute_actions actions (Some u) [] =
      (session_open ++ nav ++ Ev step_shot ok :: session_close,
       inr (RModel (MkResponse false
              ("Automation failed: "
               +:+ http_exception_str 500
                     ("Failed to navigate to starting URL: " +:+ msg))
              None shot)))
    ∧ Forall (λ e, start_nav_op (ev_op e) = true) nav
    ∧ (ok, shot) = match env (session_open ++ nav) step_shot with
                   | inr b => (true, Some (data_url b))
                   | inl _ => (false, None)
                   end.
Proof.
  intros S Hu Hnav.
  assert (T : truthy (Some u) = Some u) by (destruct u; [done | reflexivity]).
  assert (B : ∃ nav,
    try_body actions (Some u) session_open =
      (session_open ++ nav,
       inl (HTTPException 500 ("Failed to navigate to starting URL: " +:+ msg)))
    ∧ Forall (λ e, start_nav_op (ev_op e) = true) nav).
  { unfold nav_failure in Hnav.
    unfold try_body, bind at 1, initial_navigation. rewrite T.
    unfold try_except, bind, call.
    fold (start_goto u). fold start_idle.
    destruct (env session_open (start_goto u)) as [m|[]].
    - injection Hnav as ->. exists [Ev (start_goto u) false].
      split; [reflexivity|]. repeat constructor.
    - destruct (env (session_open ++ [Ev (start_goto u) true]) start_idle)
        as [m|[]]; [|discriminate].
      injection Hnav as ->.
      exists [Ev (start_goto u) true; Ev start_idle false].
      split; [|repeat constructor].
      now rewrite <- app_assoc. }
  destruct B as (nav & B & Hall). unfold step_shot.
  destruct (env (session_open ++ nav) (OScreenshot (Some "png") false))
    as [m|b] eqn:Eshot.
  - exists nav, false, None.
    split; [|split; [exact Hall | now rewrite Eshot]].
    replace (session_open ++ nav ++ Ev (OScreenshot (Some "png") false) false :: session_close)
      with ((session_open ++ nav ++ [Ev (OScreenshot (Some "png") false) false])
            ++ session_close)
      by now rewrite <- !app_assoc.
    apply execute_actions_session; [exact S|].
    unfold try_except at 1. rewrite B.
    unfold fatal_handler, try_except, bind.
    rewrite (call_raises _ _ _ Eshot). now rewrite <- app_assoc.
  - exists nav, true, (Some (data_url b)).
    split; [|split; [exact Hall | now rewrite Eshot]].
    replace (session_open ++ nav ++ Ev (OScreenshot (Some "png") false) true :: session_close)
      with ((session_open ++ nav ++ [Ev (OScreenshot (Some "png") false) true])
            ++ session_close)
      by now rewrite <- !app_assoc.
    apply execute_actions_session; [exact S|].
    unfold try_except at 1. rewrite B.
    unfold fatal_handler, try_except, bind.
    rewrite (call_returns _ _ _ Eshot). now rewrite <- app_assoc.
Qed.

(** C9: whatever the plan and whatever the driver does, if the executor
    returns then the last things it did were the one-second pause, closing
    the context and closing the browser, both closes having returned,
    followed only by leaving the Playwright scope; and it does return
    whenever the calls that open and close the session do not raise. *)
Theorem session_closed_on_every_exit (actions : list action) url :
  (∀ tr r, execute_actions actions url [] = (tr, inr r) →
           ∃ tr0, tr = tr0 ++ session_close)
  ∧ (never_raises session_op →
     ∃ tr r, execute_actions actions url [] = (tr, inr r)).
Proof.
  split.
  - intros tr r. unfold execute_actions, finally_, bind at 1 2 3 4.
    unfold call at 1. destruct (env [] OStart) as [m|[]]; [discriminate|].
    unfold call at 1. destruct (env _ OLaunch) as [m|[]].
    { unfold call. destruct (env _ OStop); discriminate. }
    unfold call at 1. destruct (env _ ONewContext) as [m|[]].
    { unfold call. destruct (env _ OStop); discriminate. }
    unfold call at 1. destruct (env _ ONewPage) as [m|[]].
    { unfold call. destruct (env _ OStop); discriminate. }
    destruct (try_except (try_body actions url) fatal_handler _) as [h1 r1].
    unfold teardown, bind, sleep, call.
    destruct (env _ OContextClose) as [m|[]].
    { destruct (env _ OStop); discriminate. }
    destruct (env _ OBrowserClose) as [m|[]].
    { destruct (env _ OStop); discriminate. }
    destruct (env _ OStop) as [m|[]]; [discriminate|].
    intros [= <- _]. exists h1. rewrite <- !app_assoc. reflexivity.
  - intros S.
    destruct (guarded_body_total actions url session_open) as (h & r & E).
    exists (h ++ session_close), r.
    apply execute_actions_session; assumption.
Qed.

End ExecutorFacts.

(** * Facts about the credential pass *)

Section CredentialFacts.

Implicit Types (c : gmap string jval) (a : action) (plan : list action).

(** The first branch of the pass: the username placeholder. *)
Lemma substitute_username c a :
  a !! "type" = Some (JStr "fill") →
  a !! "text" = Some (JStr "YOUR_USERNAME") →
  substitute_action c a = inr (<["text" := cred c "username"]> a).
Proof.
  intros Ht Hx. unfold substitute_action, text_is. rewrite Ht, Hx.
  reflexivity.
Qed.

(** The second branch: a selector that names a password, or the password
    placeholder. *)
Lemma substitute_password c a sel :
  a !! "type" = Some (JStr "fill") →
  text_is a "YOUR_USERNAME" = false →
  a !! "selector" = Some (JStr sel) →
  contains "password" (lower sel) || text_is a "YOUR_PASSWORD" = true →
  substitute_action c a = inr (<["text" := cred c "password"]> a).
Proof.
  intros Ht Hu Hs Hp. unfold substitute_action.
  rewrite Ht. cbn [is_str]. rewrite Hu, Hs, Hp. reflexivity.
Qed.

(** The pass works action by action and keeps positions. *)
Lemma substitute_all_lookup c plan plan' i a :
  substitute_all c plan = inr plan' →
  plan !! i = Some a →
  ∃ a', substitute_action c a = inr a' ∧ plan' !! i = Some a'.
Proof.
  revert plan' i. induction plan as [|x plan IH]; intros plan' i; [done|].
  cbn [substitute_all].
  destruct (substitute_action c x) as [e|x'] eqn:Ex; [done|].
  destruct (substitute_all c plan) as [e|rest'] eqn:Er; [done|].
  intros [= <-]. destruct i as [|i]; cbn.
  - intros [= <-]. eauto.
  - intros Hi. now apply IH.
Qed.

Lemma substitute_credentials_lookup c plan plan' i a :
  size c ≠ 0%nat →
  substitute_credentials (Some c) plan = inr plan' →
  plan !! i = Some a →
  ∃ a', substitute_action c a = inr a' ∧ plan' !! i = Some a'.
Proof.
  intros Hc. unfold substitute_credentials.
  rewrite bool_decide_eq_false_2 by exact Hc.
  apply substitute_all_lookup.
Qed.

(** C8: with credentials [{username: "u", password: "p"}], in a plan that
    holds a fill action on "#user" with text "YOUR_USERNAME" and a fill
    action on "#pass" with text "YOUR_PASSWORD", the pass leaves at the
    same positions actions whose text is "u" and "p" and whose other
    fields are those of the original actions; on the plan made of just
    these two actions the pass returns exactly the two updated actions. *)
Theorem credential_substitution_example (a1 a2 : action) plan plan' i j :
  let creds : gmap string jval :=
    {[ "username" := JStr "u"; "password" := JStr "p" ]} in
  a1 !! "type" = Some (JStr "fill") →
  a1 !! "selector" = Some (JStr "#user") →
  a1 !! "text" = Some (JStr "YOUR_USERNAME") →
  a2 !! "type" = Some (JStr "fill") →
  a2 !! "selector" = Some (JStr "#pass") →
  a2 !! "text" = Some (JStr "YOUR_PASSWORD") →
  substitute_credentials (Some creds) [a1; a2]
    = inr [<["text" := JStr "u"]> a1; <["text" := JStr "p"]> a2]
  ∧ (substitute_credentials (Some creds) plan = inr plan' →
     plan !! i = Some a1 → plan !! j = Some a2 →
     ∃ a1' a2',
       plan' !! i = Some a1' ∧ plan' !! j = Some a2'
       ∧ a1' !! "text" = Some (JStr "u")
       ∧ a2' !! "text" = Some (JStr "p")
       ∧ ∀ k, k ≠ "text" → a1' !! k = a1 !! k ∧ a2' !! k = a2 !! k).
Proof.
  intros creds Ht1 Hs1 Hx1 Ht2 Hs2 Hx2.
  assert (S1 : substitute_action creds a1 = inr (<["text" := JStr "u"]> a1)).
  { now rewrite (substitute_username _ _ Ht1 Hx1). }
  assert (S2 : substitute_action creds a2 = inr (<["text" := JStr "p"]> a2)).
  { rewrite (substitute_password _ _ "#pass" Ht2); try done.
    - unfold text_is. now rewrite Hx2.
    - unfold text_is. now rewrite Hx2. }
  assert (Hc : size creds ≠ 0%nat) by (now vm_compute).
  split.
  - unfold substitute_credentials.
    rewrite bool_decide_eq_false_2 by exact Hc.
    cbn [substitute_all]. now rewrite S1, S2.
  - intros Hp Hi Hj.
    destruct (substitute_credentials_lookup _ _ _ _ _ Hc Hp Hi) as (a1' & E1 & L1).
    destruct (substitute_credentials_lookup _ _ _ _ _ Hc Hp Hj) as (a2' & E2 & L2).
    rewrite S1 in E1. rewrite S2 in E2.
    injection E1 as <-. injection E2 as <-.
    eexists _, _. split; [exact L1|]. split; [exact L2|].
    split; [apply lookup_insert_eq|]. split; [apply lookup_insert_eq|].
    intros k Hk. assert ("text" ≠ k) by (intros <-; now apply Hk).
    split; apply lookup_insert_ne; assumption.
Qed.

(** C10: in the pass, a fill action whose text is "YOUR_USERNAME" gets the
    supplied username, whatever its selector is, also one that contains
    "password"; the replacement by the password for a selector that
    contains "password" in any letter case is made only on fill actions
    whose text is not "YOUR_USERNAME". *)
Theorem username_sentinel_takes_precedence c u plan plan' i a :
  c !! "username" = Some u →
  substitute_credentials (Some c) plan = inr plan' →
  plan !! i = Some a →
  a !! "type" = Some (JStr "fill") →
  (a !! "text" = Some (JStr "YOUR_USERNAME") →
   plan' !! i = Some (<["text" := u]> a))
  ∧ (text_is a "YOUR_USERNAME" = false →
     ∀ sel, a !! "selector" = Some (JStr sel) →
            contains "password" (lower sel) = true →
            plan' !! i = Some (<["text" := cred c "password"]> a)).
Proof.
  intros Hu Hp Hi Ht.
  assert (Hc : size c ≠ 0%nat).
  { apply map_size_ne_0_lookup. eauto. }
  destruct (substitute_credentials_lookup _ _ _ _ _ Hc Hp Hi) as (a' & E & L).
  split.
  - intros Hx. rewrite (substitute_username _ _ Ht Hx) in E.
    unfold cred in E. rewrite Hu in E. injection E as <-. exact L.
  - intros Hn sel Hs Hsel.
    rewrite (substitute_password _ _ sel Ht Hn Hs) in E.
    + injection E as <-. exact L.
    + rewrite Hsel. reflexivity.
Qed.

End CredentialFacts.

(** * Runs on the sample drivers *)

Section Runs.

Import Sample.

Ltac solve_never_raises :=
  intros h o Ho; destruct o; cbn in Ho; try discriminate Ho;
  eexists; reflexivity.

Lemma state_check_fails_iff (current_state new_state : button_state) :
  state_check_fails current_state new_state = true
  ↔ aria_pressed new_state = aria_pressed current_state
    ∨ aria_label new_state = aria_label current_state.
Proof.
  unfold state_check_fails.
  rewrite orb_true_iff, !String.eqb_eq. reflexivity.
Qed.

(** C1: the verification of lines 273-276 at a like that flips the pressed
    flag and leaves the label as it was.  The two snapshots differ in
    [aria_pressed], the test of line 273 holds all the same, and the
    executor returns the failure dict with the message "button state
    unchanged". *)
Theorem like_post_rejects_pressed_only_change :
  (∃ h, @snapshot rt_pressed_only 10%nat []
        = (h, inr (ButtonState "false" "React Like" "null")))
  ∧ (∃ h, @snapshot rt_pressed_only 10%nat
            [Ev (OElemEvaluate 10%nat click_script) true]
          = (h, inr (ButtonState "true" "React Like" "null")))
  ∧ state_check_fails (ButtonState "false" "React Like" "null")
                      (ButtonState "true" "React Like" "null") = true
  ∧ ∃ tr, @execute_actions rt_pressed_only [like_first] None []
          = (tr, inr (RDict (LikeResult false unchanged_message
                               (DebugError unchanged_message (Some "PNG"))))).
Proof.
  repeat split; try (eexists; vm_compute; reflexivity).
Qed.

(** C3: the short circuit of [like_post] on its failure path, at a feed
    without posts where the screenshot of line 295 times out.  The
    exception of the screenshot leaves the handler's [except] and is
    caught at line 302: instead of returning its dict the [like_post]
    gets a failed step result, the next action of the plan runs, and the
    executor returns the ordinary response with both steps. *)
Theorem like_post_failure_path_without_screenshot :
  ∃ tr,
    @execute_actions rt_no_posts_flaky_shot plan_like_then_wait None [] =
      (tr, inr (RModel (MkResponse true "Automation completed"
             (Some [StepResult like_first false
                               (Some "Timeout 30000ms exceeded") (Some "PNG");
                    StepResult wait_500 true None None])
             (Some "data:image/png;base64,PNG"))))
    ∧ In (Ev (OScreenshot None false) false) tr
    ∧ In (Ev (OWaitForTimeout (JInt 500)) true) tr.
Proof.
  eexists. split; [vm_compute; reflexivity|].
  cbn. tauto.
Qed.

Lemma one_step_result_per_action_witness :
  @no_fatal_error rt_click_fails
  ∧ Forall (λ a, is_like_post a = false) plan_mixed
  ∧ ∃ tr steps shot,
      @execute_actions rt_click_fails plan_mixed (Some start_url) [] =
        (tr, inr (RModel (MkResponse true "Automation completed"
                                     (Some steps) (Some shot))))
      ∧ length steps = length plan_mixed
      ∧ sr_action <$> steps = plan_mixed.
Proof.
  assert (F : @no_fatal_error rt_click_fails) by solve_never_raises.
  assert (L : Forall (λ a, is_like_post a = false) plan_mixed)
    by (repeat constructor).
  split; [exact F|]. split; [exact L|].
  exact (one_step_result_per_action plan_mixed (Some start_url) F L).
Defined.

Lemma press_without_selector_fails_witness :
  press_enter !! "type" = Some (JStr "press")
  ∧ press_enter !! "selector" = None
  ∧ ∃ ok shot,
      let s := StepResult press_enter false
                 (Some "Press action requires a selector parameter") shot in
      let h' := session_open ++ [Ev step_shot ok] in
      @exec_step rt_ok press_enter session_open = (h', inr (inr s))
      ∧ @run_loop rt_ok (press_enter :: [wait_500]) [] session_open
        = @run_loop rt_ok [wait_500] ([] ++ [s]) h'.
Proof.
  split; [reflexivity|]. split; [reflexivity|].
  exact (press_without_selector_fails (rt := rt_ok) press_enter [wait_500] []
           session_open eq_refl eq_refl).
Defined.


Lemma like_post_index_clamps_witness :
  @env rt_ok session_open (OWaitForSelector (JStr feed_selector) None 15000)
    = inr tt
  ∧ @env rt_ok
      (session_open ++ [Ev (OWaitForSelector (JStr feed_selector) None 15000) true])
      (OQuerySelectorAll posts_selector) = inr [1; 2; 3]%nat
  ∧ [1; 2; 3]%nat ≠ []
  ∧ like_seventh !! "index" = Some (JInt 7)
  ∧ Z.of_nat (length [1; 2; 3]%nat) < 7
  ∧ ∃ target,
      last [1; 2; 3]%nat = Some target
      ∧ Z.min (7 - 1) (Z.of_nat (length [1; 2; 3]%nat) - 1)
        = Z.of_nat (length [1; 2; 3]%nat) - 1
      ∧ (∀ h0, py_list_get [1; 2; 3]%nat
                 (Z.min (7 - 1) (Z.of_nat (length [1; 2; 3]%nat) - 1)) h0
               = (h0, inr target))
      ∧ @like_post_try rt_ok like_seventh session_open
        = @like_on_post rt_ok target
            (session_open
             ++ [Ev (OWaitForSelector (JStr feed_selector) None 15000) true;
                 Ev (OQuerySelectorAll posts_selector) true]).
Proof.
  assert (Hne : [1; 2; 3]%nat ≠ []) by discriminate.
  split; [reflexivity|]. split; [reflexivity|]. split; [exact Hne|].
  split; [reflexivity|]. split; [reflexivity|].
  exact (like_post_index_clamps (rt := rt_ok) like_seventh session_open
           [1; 2; 3]%nat 7 eq_refl eq_refl Hne eq_refl eq_refl).
Defined.

Lemma like_post_short_circuits_witness :
  @never_raises rt_click_fails
    (λ o, session_op o || start_nav_op o || like_shot_op o)
  ∧ Forall (λ x, is_like_post x = false) [click_x]
  ∧ is_like_post like_first = true
  ∧ ∃ h0 h1 lr,
      @like_post rt_click_fails like_first h0 = (h1, inr lr)
      ∧ ∀ post,
          @execute_actions rt_click_fails ([click_x] ++ like_first :: post)
            (Some start_url) []
          = (h1 ++ session_close, inr (RDict lr)).
Proof.
  assert (F : @never_raises rt_click_fails
                (λ o, session_op o || start_nav_op o || like_shot_op o))
    by solve_never_raises.
  assert (L : Forall (λ x, is_like_post x = false) [click_x])
    by (repeat constructor).
  split; [exact F|]. split; [exact L|]. split; [reflexivity|].
  exact (like_post_short_circuits [click_x] like_first (Some start_url)
           F L eq_refl).
Defined.

Lemma initial_navigation_failure_aborts_witness :
  @never_raises rt_nav_fails session_op
  ∧ start_url ≠ ""
  ∧ @nav_failure rt_nav_fails session_open start_url
    = Some "net::ERR_NAME_NOT_RESOLVED"
  ∧ ∃ nav ok shot,
      @execute_actions rt_nav_fails plan_mixed (Some start_url) [] =
        (session_open ++ nav ++ Ev step_shot ok :: session_close,
         inr (RModel (MkResponse false
                ("Automation failed: "
                 +:+ @http_exception_str rt_nav_fails 500
                       ("Failed to navigate to starting URL: "
                        +:+ "net::ERR_NAME_NOT_RESOLVED"))
                None shot)))
      ∧ Forall (λ e, start_nav_op (ev_op e) = true) nav
      ∧ (ok, shot) = match @env rt_nav_fails (session_open ++ nav) step_shot with
                     | inr b => (true, Some (@data_url rt_nav_fails b))
                     | inl _ => (false, None)
                     end.
Proof.
  assert (S : @never_raises rt_nav_fails session_op) by solve_never_raises.
  assert (U : start_url ≠ "") by discriminate.
  split; [exact S|]. split; [exact U|]. split; [reflexivity|].
  exact (initial_navigation_failure_aborts plan_mixed start_url
           "net::ERR_NAME_NOT_RESOLVED" S U eq_refl).
Defined.

Lemma session_closed_on_every_exit_witness :
  @never_raises rt_pressed_only session_op
  ∧ (∀ tr r,
       @execute_actions rt_pressed_only plan_like_then_wait None []
         = (tr, inr r) →
       ∃ tr0, tr = tr0 ++ session_close)
  ∧ (@never_raises rt_pressed_only session_op →
     ∃ tr r, @execute_actions rt_pressed_only plan_like_then_wait None []
             = (tr, inr r)).
Proof.
  split; [solve_never_raises|].
  exact (session_closed_on_every_exit (rt := rt_pressed_only)
           plan_like_then_wait None).
Defined.

Lemma credential_substitution_example_witness :
  fill_user !! "type" = Some (JStr "fill")
  ∧ fill_user !! "selector" = Some (JStr "#user")
  ∧ fill_user !! "text" = Some (JStr "YOUR_USERNAME")
  ∧ fill_pass !! "type" = Some (JStr "fill")
  ∧ fill_pass !! "selector" = Some (JStr "#pass")
  ∧ fill_pass !! "text" = Some (JStr "YOUR_PASSWORD")
  ∧ substitute_credentials (Some creds_up) plan_login = inr plan_login_done
  ∧ plan_login !! 0%nat = Some fill_user
  ∧ plan_login !! 2%nat = Some fill_pass
  ∧ ∃ a1' a2',
      plan_login_done !! 0%nat = Some a1'
      ∧ plan_login_done !! 2%nat = Some a2'
      ∧ a1' !! "text" = Some (JStr "u")
      ∧ a2' !! "text" = Some (JStr "p")
      ∧ ∀ k, k ≠ "text" →
             a1' !! k = fill_user !! k ∧ a2' !! k = fill_pass !! k.
Proof.
  assert (P : substitute_credentials (Some creds_up) plan_login
              = inr plan_login_done) by (vm_compute; reflexivity).
  repeat (split; [first [exact P | reflexivity]|]).
  exact (proj2 (credential_substitution_example fill_user fill_pass
                  plan_login plan_login_done 0 2
                  eq_refl eq_refl eq_refl eq_refl eq_refl eq_refl)
               P eq_refl eq_refl).
Defined.

Lemma username_sentinel_takes_precedence_witness :
  creds_up !! "username" = Some (JStr "u")
  ∧ substitute_credentials (Some creds_up) plan_confusing
    = inr plan_confusing_done
  ∧ plan_confusing !! 0%nat = Some fill_confusing
  ∧ fill_confusing !! "type" = Some (JStr "fill")
  ∧ fill_confusing !! "text" = Some (JStr "YOUR_USERNAME")
  ∧ fill_confusing !! "selector" = Some (JStr "input[name='Password']")
  ∧ contains "password" (lower "input[name='Password']") = true
  ∧ plan_confusing_done !! 0%nat = Some (<["text" := JStr "u"]> fill_confusing)
  ∧ plan_confusing !! 1%nat = Some fill_by_selector
  ∧ fill_by_selector !! "type" = Some (JStr "fill")
  ∧ text_is fill_by_selector "YOUR_USERNAME" = false
  ∧ fill_by_selector !! "selector" = Some (JStr "input[name='session_PASSWORD']")
  ∧ contains "password" (lower "input[name='session_PASSWORD']") = true
  ∧ plan_confusing_done !! 1%nat
    = Some (<["text" := cred creds_up "password"]> fill_by_selector).
Proof.
  assert (P : substitute_credentials (Some creds_up) plan_confusing
              = inr plan_confusing_done) by (vm_compute; reflexivity).
  do 7 (split; [first [exact P | reflexivity]|]).
  split.
  - exact (proj1 (username_sentinel_takes_precedence creds_up (JStr "u")
                    plan_confusing plan_confusing_done 0 fill_confusing
                    eq_refl P eq_refl eq_refl)
                 eq_refl).
  - do 5 (split; [reflexivity|]).
    exact (proj2 (username_sentinel_takes_precedence creds_up (JStr "u")
                    plan_confusing plan_confusing_done 1 fill_by_selector
                    eq_refl P eq_refl eq_refl)
                 eq_refl "input[name='session_PASSWORD']" eq_refl eq_refl).
Defined.

End Runs.

(** * Further facts about the executor: traces *)

Section TraceFacts.

Context {rt : Runtime}.

Lemma emits_ret {A} P (x : A) : emits P (ret x).
Proof. intros h h' r [= <- _]. exists []. now rewrite app_nil_r. Qed.

Lemma emits_raise {A} P e : emits P (@raise A e).
Proof. intros h h' r [= <- _]. exists []. now rewrite app_nil_r. Qed.

Lemma emits_lift_result {A} P (x : exn + A) : emits P (lift_result x).
Proof. intros h h' r [= <- _]. exists []. now rewrite app_nil_r. Qed.

Lemma emits_bind {A B} P (m : M A) (k : A → M B) :
  emits P m → (∀ x, emits P (k x)) → emits P (bind m k).
Proof.
  intros Hm Hk h h' r. unfold bind.
  destruct (m h) as [h1 [e|x]] eqn:E; destruct (Hm _ _ _ E) as (t1 & -> & F1).
  - intros [= <- _]. eauto.
  - intros E2. destruct (Hk _ _ _ _ E2) as (t2 & -> & F2).
    exists (t1 ++ t2). split; [now rewrite app_assoc | now apply Forall_app].
Qed.

Lemma emits_try_except {A} P (m : M A) (handler : exn → M A) :
  emits P m → (∀ e, emits P (handler e)) → emits P (try_except m handler).
Proof.
  intros Hm Hk h h' r. unfold try_except.
  destruct (m h) as [h1 [e|x]] eqn:E; destruct (Hm _ _ _ E) as (t1 & -> & F1).
  - intros E2. destruct (Hk _ _ _ _ E2) as (t2 & -> & F2).
    exists (t1 ++ t2). split; [now rewrite app_assoc | now apply Forall_app].
  - intros [= <- _]. eauto.
Qed.

Lemma emits_call P o : P o = true → emits P (call o).
Proof.
  intros Ho h h' r. unfold call.
  destruct (env h o); intros [= <- _]; eexists; (split; [reflexivity|]);
    repeat constructor; exact Ho.
Qed.

Lemma emits_getitem P (a : action) key : emits P (getitem a key).
Proof.
  unfold getitem. destruct (a !! key); [apply emits_ret | apply emits_raise].
Qed.

Lemma emits_py_minus_1 P v : emits P (py_minus_1 v).
Proof. destruct v; first [apply emits_ret | apply emits_raise]. Qed.

Lemma emits_py_list_get {A} P (l : list A) i : emits P (py_list_get l i).
Proof.
  unfold py_list_get. cbv zeta.
  destruct (_ && _); [destruct (l !! _)|];
    first [apply emits_ret | apply emits_raise].
Qed.

Ltac solve_emits :=
  repeat first
    [ apply emits_ret
    | apply emits_raise
    | apply emits_getitem
    | apply emits_py_minus_1
    | apply emits_py_list_get
    | match goal with
      | |- emits ?P (call ?o) => apply (emits_call P o); reflexivity
      end
    | apply emits_bind; [|intros ?]
    | apply emits_try_except; [|intros ?]
    | match goal with
      | |- emits _ (if ?b then _ else _) => destruct b
      | |- emits _ (match ?x with _ => _ end) => destruct x
      end ].

Lemma emits_snapshot b : emits page_op (snapshot b).
Proof. unfold snapshot. solve_emits. Qed.

Lemma emits_like_on_post post : emits page_op (like_on_post post).
Proof.
  unfold like_on_post.
  repeat first [ apply emits_snapshot | progress solve_emits ].
Qed.

Lemma emits_like_post (a : action) : emits page_op (like_post a).
Proof.
  unfold like_post, like_post_try.
  repeat first [ apply emits_like_on_post | progress solve_emits ].
Qed.

Lemma emits_dispatch (a : action) : emits page_op (dispatch a).
Proof.
  unfold dispatch.
  repeat first [ apply emits_like_post | progress solve_emits ].
Qed.

Lemma emits_exec_step (a : action) : emits page_op (exec_step a).
Proof.
  unfold exec_step.
  repeat first [ apply emits_dispatch | progress solve_emits ].
Qed.

Lemma emits_run_loop (actions : list action) steps :
  emits page_op (run_loop actions steps).
Proof.
  revert steps. induction actions as [|a rest IH]; intros steps; cbn [run_loop].
  - apply emits_ret.
  - apply emits_bind; [apply emits_exec_step|].
    intros [lr|s]; [apply emits_ret | apply IH].
Qed.

Lemma emits_guarded_body (actions : list action) starting_url :
  emits page_op (try_except (try_body actions starting_url) fatal_handler).
Proof.
  apply emits_try_except.
  - unfold try_body, initial_navigation.
    repeat first [ apply emits_run_loop | progress solve_emits ].
  - intros e. unfold fatal_handler. solve_emits.
Qed.

End TraceFacts.

(** * Further facts about the executor: results *)

Section ResultFacts.

Context {rt : Runtime}.

Lemma state_check_fails_iff_false (cur new : button_state) :
  state_check_fails cur new = false
  ↔ aria_pressed new ≠ aria_pressed cur ∧ aria_label new ≠ aria_label cur.
Proof.
  unfold state_check_fails.
  rewrite orb_false_iff, !String.eqb_neq. reflexivity.
Qed.

Lemma bind_returned {A B} (m : M A) (k : A → M B) h h' y :
  bind m k h = (h', inr y) →
  ∃ h1 x, m h = (h1, inr x) ∧ k x h1 = (h', inr y).
Proof.
  unfold bind. destruct (m h) as [h1 [e|x]]; [discriminate|]. eauto.
Qed.

(** The step result of an iteration is for its action and is well formed. *)
Lemma exec_step_result (a : action) h h' s :
  exec_step a h = (h', inr (inr s)) → sr_action s = a ∧ step_ok s.
Proof.
  unfold exec_step, try_except.
  match goal with |- context [bind (dispatch a) ?k h] =>
    destruct (bind (dispatch a) k h) as [h1 [e|r]] eqn:E end.
  - unfold bind, try_except, call.
    destruct (env h1 _); intros [= _ <-]; split; cbn; eauto.
  - intros [= -> ->].
    apply bind_returned in E as (h2 & [lr|] & _ & E); [discriminate|].
    apply bind_returned in E as (h3 & [] & _ & [= _ <-]).
    split; cbn; eauto.
Qed.

Lemma run_loop_total (actions : list action) steps h :
  ∃ h' r, run_loop actions steps h = (h', inr r).
Proof.
  revert steps h. induction actions as [|a rest IH]; intros steps h;
    cbn [run_loop]; [eexists _, _; reflexivity|].
  destruct (exec_step_total a h) as (h1 & r & E & _).
  unfold bind. rewrite E. destruct r as [lr|s]; [eexists _, _; reflexivity|].
  apply IH.
Qed.

(** Whenever the loop runs to its end, it has appended one well-formed step
    result per action, in order, also for the [like_post] actions whose
    handler did not return. *)
Lemma run_loop_completed (actions : list action) steps h h' out :
  run_loop actions steps h = (h', inr (inr out)) →
  ∃ new, out = steps ++ new ∧ sr_action <$> new = actions ∧ Forall step_ok new.
Proof.
  revert steps h. induction actions as [|a rest IH]; intros steps h;
    cbn [run_loop].
  - intros [= _ <-]. exists []. now rewrite app_nil_r.
  - intros E. apply bind_returned in E as (h1 & [lr|s] & E1 & E2);
      [discriminate|].
    apply exec_step_result in E1 as [Ha Hs].
    apply IH in E2 as (new & -> & Hn & Hall).
    exists (s :: new). split; [now rewrite <- app_assoc|].
    split; [rewrite fmap_cons; congruence | now constructor].
Qed.

(** If the loop ends with a dict, a [like_post] of the plan returned it. *)
Lemma run_loop_returned_dict (actions : list action) steps h h' lr :
  run_loop actions steps h = (h', inr (inl lr)) →
  ∃ a h0 h1, a ∈ actions ∧ is_like_post a = true
             ∧ like_post a h0 = (h1, inr lr).
Proof.
  revert steps h. induction actions as [|a rest IH]; intros steps h;
    cbn [run_loop]; [discriminate|].
  intros E. apply bind_returned in E as (h1 & [lr'|s] & E1 & E2).
  - injection E2 as -> ->.
    destruct (is_like_post a) eqn:Hl.
    + exists a. 
      unfold exec_step, try_except in E1.
      match type of E1 with context [bind (dispatch a) ?k h] =>
        destruct (bind (dispatch a) k h) as [h2 [e|r]] eqn:E end.
      * unfold bind, try_except, call in E1.
        destruct (env h2 _); discriminate.
      * injection E1 as -> ->.
        apply bind_returned in E as (h3 & [lr'|] & D & E).
        2:{ apply bind_returned in E as (? & ? & _ & [=]). }
        injection E as -> ->.
        unfold dispatch in D.
        apply bind_returned in D as (h4 & ty & G & D).
        unfold getitem in G. unfold is_like_post in Hl.
        destruct (a !! "type") as [ty'|] eqn:Hty; [|discriminate].
        injection G as <- <-.
        destruct ty' as [| | |k| |]; try discriminate.
        cbn [is_str] in Hl. apply String.eqb_eq in Hl as ->.
        cbn in D.
        apply bind_returned in D as (h5 & r & D & [= -> ->]).
        exists h, h'. split; [constructor|]. split; [|exact D].
        unfold is_like_post. now rewrite Hty.
    + destruct (exec_step_total a h) as (? & ? & E' & Hr).
      destruct (Hr Hl) as (s & -> & _). rewrite E' in E1. discriminate.
  - apply IH in E2 as (b & h0 & h2 & Hb & Hl & El).
    exists b, h0, h2. split; [now constructor|]. now split.
Qed.

End ResultFacts.

Section ShapeFacts.

Context {rt : Runtime}.

Lemma like_on_post_returned post h h' lr :
  like_on_post post h = (h', inr lr) →
  ∃ cur new,
    lr = LikeResult true "Successfully liked post" (DebugStates cur new)
    ∧ state_check_fails cur new = false.
Proof.
  unfold like_on_post. intros E.
  apply bind_returned in E as (? & ? & _ & E).
  apply bind_returned in E as (? & ? & _ & E).
  apply bind_returned in E as (? & ? & _ & E).
  apply bind_returned in E as (? & b & _ & E).
  apply bind_returned in E as (? & cur & _ & E).
  apply bind_returned in E as (? & ? & _ & E).
  apply bind_returned in E as (? & ? & _ & E).
  apply bind_returned in E as (? & new & _ & E).
  destruct (state_check_fails cur new) eqn:F; [discriminate|].
  injection E as _ <-. eauto.
Qed.

(** What [like_post] returns has one of the two forms of [like_shape]. *)
Lemma like_post_shape (a : action) h h' lr :
  like_post a h = (h', inr lr) → like_shape lr.
Proof.
  unfold like_post, try_except.
  destruct (like_post_try a h) as [h1 [e|r]] eqn:E.
  - unfold bind, call. destruct (env h1 _); [discriminate|].
    intros [= _ <-]. right. eexists. split; reflexivity.
  - intros [= _ <-]. left. unfold like_post_try in E.
    apply bind_returned in E as (? & ? & _ & E).
    apply bind_returned in E as (? & posts & _ & E).
    destruct posts; [discriminate|].
    apply bind_returned in E as (? & ? & _ & E). cbv zeta in E.
    apply bind_returned in E as (? & ? & _ & E).
    apply like_on_post_returned in E as (cur & new & -> & F).
    apply state_check_fails_iff_false in F as [? ?]. eauto.
Qed.

(** When the executor returns, the guarded body returned that value with
    the session open, and the teardown followed. *)
Lemma execute_actions_returned (actions : list action) starting_url tr r :
  execute_actions actions starting_url [] = (tr, inr r) →
  ∃ h1, try_except (try_body actions starting_url) fatal_handler session_open
        = (h1, inr r)
        ∧ tr = h1 ++ session_close.
Proof.
  unfold execute_actions, finally_, bind at 1 2 3 4.
  unfold call at 1. destruct (env [] OStart) as [m|[]]; [discriminate|].
  unfold call at 1. destruct (env _ OLaunch) as [m|[]].
  { unfold call. destruct (env _ OStop); discriminate. }
  unfold call at 1. destruct (env _ ONewContext) as [m|[]].
  { unfold call. destruct (env _ OStop); discriminate. }
  unfold call at 1. destruct (env _ ONewPage) as [m|[]].
  { unfold call. destruct (env _ OStop); discriminate. }
  change ((([] ++ [Ev OStart true]) ++ [Ev OLaunch true]) ++ [Ev ONewContext true])
    with [Ev OStart true; Ev OLaunch true; Ev ONewContext true].
  change ([Ev OStart true; Ev OLaunch true; Ev ONewContext true] ++ [Ev ONewPage true])
    with session_open.
  destruct (try_except (try_body actions starting_url) fatal_handler session_open)
    as [h1 r1].
  unfold teardown, bind, sleep, call.
  destruct (env _ OContextClose) as [m|[]].
  { destruct (env _ OStop); discriminate. }
  destruct (env _ OBrowserClose) as [m|[]].
  { destruct (env _ OStop); discriminate. }
  destruct (env _ OStop) as [m|[]]; [discriminate|].
  intros [= <- ->]. exists h1. split; [reflexivity|].
  rewrite <- !app_assoc. reflexivity.
Qed.

(** X1: a response of the executor is either the success response, with
    one well-formed step result per action of the plan in order and the
    final screenshot, or a failure response, which never carries steps. *)
Theorem response_shape (actions : list action) starting_url tr resp :
  execute_actions actions starting_url [] = (tr, inr (RModel resp)) →
  (success resp = true
   ∧ message resp = "Automation completed"
   ∧ ∃ steps shot,
       data resp = Some steps
       ∧ screenshot resp = Some (data_url shot)
       ∧ sr_action <$> steps = actions
       ∧ Forall step_ok steps)
  ∨ (success resp = false
     ∧ data resp = None
     ∧ ∃ m, message resp = "Automation failed: " +:+ m).
Proof.
  intros E. apply execute_actions_returned in E as (h1 & E & _).
  unfold try_except in E.
  destruct (try_body actions starting_url session_open) as [h2 [e|r]] eqn:B.
  - right. unfold fatal_handler, try_except, bind, call in E.
    destruct (env h2 _); injection E as _ <-; cbn; eauto.
  - injection E as _ ->. left. unfold try_body in B.
    apply bind_returned in B as (? & ? & _ & B).
    apply bind_returned in B as (h3 & [lr|steps] & L & B); [discriminate|].
    apply bind_returned in B as (? & shot & _ & [= _ <-]).
    apply run_loop_completed in L as (new & -> & Hn & Hall).
    cbn. split; [reflexivity|]. split; [reflexivity|]. eauto 10.
Qed.

(** X2: when the executor returns a dict, a [like_post] action of the plan
    produced it, and the dict has one of the two forms of [like_shape]. *)
Theorem dict_result_shape (actions : list action) starting_url tr lr :
  execute_actions actions starting_url [] = (tr, inr (RDict lr)) →
  (∃ a, a ∈ actions ∧ is_like_post a = true) ∧ like_shape lr.
Proof.
  intros E. apply execute_actions_returned in E as (h1 & E & _).
  unfold try_except in E.
  destruct (try_body actions starting_url session_open) as [h2 [e|r]] eqn:B.
  - unfold fatal_handler, try_except, bind, call in E.
    destruct (env h2 _); discriminate.
  - injection E as _ ->. unfold try_body in B.
    apply bind_returned in B as (? & ? & _ & B).
    apply bind_returned in B as (h3 & [lr'|steps] & L & B).
    + injection B as _ ->.
      apply run_loop_returned_dict in L as (a & h0 & h4 & Ha & Hl & El).
      split; [eauto|]. eapply like_post_shape, El.
    + apply bind_returned in B as (? & ? & _ & [=]).
Qed.

End ShapeFacts.

Section SessionFacts.

Context {rt : Runtime}.

Ltac solve_elem :=
  repeat split; try reflexivity;
  rewrite ?elem_of_app, ?elem_of_cons, ?elem_of_nil; intuition congruence.

Ltac split_elem H :=
  repeat first
    [ apply elem_of_app in H as [H|H]
    | apply elem_of_cons in H as [H|H]
    | apply elem_of_nil in H ];
  try discriminate H; try contradiction.

Ltac solve_not_elem := intros ? H; split_elem H.

(** X3: between opening and closing the session the executor makes page
    calls only: with a session that opens and closes, its trace is the four
    opening calls, then page calls, then the teardown. *)
Theorem page_calls_stay_inside_the_session (actions : list action) starting_url :
  never_raises session_op →
  ∃ t r,
    execute_actions actions starting_url []
      = (session_open ++ t ++ session_close, inr r)
    ∧ Forall (λ e, page_op (ev_op e) = true) t.
Proof.
  intros S.
  destruct (guarded_body_total actions starting_url session_open) as (h & r & E).
  destruct (emits_guarded_body _ _ _ _ _ E) as (t & -> & F).
  exists t, r. split; [|exact F].
  rewrite app_assoc. now apply execute_actions_session.
Qed.

(** An exception that leaves the executor is the one the driver raised on a
    call that opens or closes the session. *)
Lemma execute_actions_raised (actions : list action) starting_url tr e :
  execute_actions actions starting_url [] = (tr, inl e) →
  ∃ o h0 msg,
    session_op o = true ∧ env h0 o = inl msg
    ∧ e = DriverError msg ∧ Ev o false ∈ tr.
Proof.
  unfold execute_actions, finally_, bind at 1 2 3 4.
  unfold call at 1. destruct (env [] OStart) as [m|[]] eqn:E0.
  { intros [= <- <-]. exists OStart, [], m. solve_elem. }
  unfold call at 1. destruct (env _ OLaunch) as [m|[]] eqn:E1.
  { unfold call. destruct (env _ OStop) as [m'|[]] eqn:E9; intros [= <- <-].
    - eexists OStop, _, m'. split; [reflexivity|]. split; [exact E9|].
      solve_elem.
    - eexists OLaunch, _, m. split; [reflexivity|]. split; [exact E1|].
      solve_elem. }
  unfold call at 1. destruct (env _ ONewContext) as [m|[]] eqn:E2.
  { unfold call. destruct (env _ OStop) as [m'|[]] eqn:E9; intros [= <- <-].
    - eexists OStop, _, m'. split; [reflexivity|]. split; [exact E9|].
      solve_elem.
    - eexists ONewContext, _, m. split; [reflexivity|]. split; [exact E2|].
      solve_elem. }
  unfold call at 1. destruct (env _ ONewPage) as [m|[]] eqn:E3.
  { unfold call. destruct (env _ OStop) as [m'|[]] eqn:E9; intros [= <- <-].
    - eexists OStop, _, m'. split; [reflexivity|]. split; [exact E9|].
      solve_elem.
    - eexists ONewPage, _, m. split; [reflexivity|]. split; [exact E3|].
      solve_elem. }
  match goal with |- context [try_except ?b ?f ?h] =>
    destruct (guarded_body_total actions starting_url h) as (h1 & r1 & ->) end.
  unfold teardown, bind, sleep, call.
  destruct (env _ OContextClose) as [m|[]] eqn:E4.
  { destruct (env _ OStop) as [m'|[]] eqn:E9; intros [= <- <-].
    - eexists OStop, _, m'. split; [reflexivity|]. split; [exact E9|].
      solve_elem.
    - eexists OContextClose, _, m. split; [reflexivity|]. split; [exact E4|].
      solve_elem. }
  destruct (env _ OBrowserClose) as [m|[]] eqn:E5.
  { destruct (env _ OStop) as [m'|[]] eqn:E9; intros [= <- <-].
    - eexists OStop, _, m'. split; [reflexivity|]. split; [exact E9|].
      solve_elem.
    - eexists OBrowserClose, _, m. split; [reflexivity|]. split; [exact E5|].
      solve_elem. }
  destruct (env _ OStop) as [m'|[]] eqn:E9; [|discriminate].
  intros [= <- <-]. eexists OStop, _, m'.
  split; [reflexivity|]. split; [exact E9|]. solve_elem.
Qed.

(** X4: the only exceptions that leave the executor are those raised by a
    call that opens or closes the session; no error of the navigation, of
    an action or of a screenshot escapes. *)
Theorem only_session_errors_escape (actions : list action) starting_url tr e :
  execute_actions actions starting_url [] = (tr, inl e) →
  ∃ o msg, session_op o = true ∧ e = DriverError msg ∧ Ev o false ∈ tr.
Proof.
  intros E.
  destruct (execute_actions_raised _ _ _ _ E) as (o & h0 & msg & Ho & _ & He & Hin).
  exists o, msg. split; [exact Ho|]. split; [exact He | exact Hin].
Qed.

(** X5: when [context.close()] raises, [browser.close()] is never called:
    the executor raises and its trace holds no call that closes the
    browser. *)
Theorem browser_left_open_when_context_close_raises
    (actions : list action) starting_url tr r :
  (∀ h, ∃ msg, env h OContextClose = inl msg) →
  execute_actions actions starting_url [] = (tr, r) →
  (∃ e, r = inl e) ∧ ∀ ok, Ev OBrowserClose ok ∉ tr.
Proof.
  intros Hc.
  unfold execute_actions, finally_, bind at 1 2 3 4.
  unfold call at 1. destruct (env [] OStart) as [m|[]].
  { intros [= <- <-]. split; [eauto|]. solve_not_elem. }
  unfold call at 1. destruct (env _ OLaunch) as [m|[]].
  { unfold call. destruct (env _ OStop) as [m'|[]]; intros [= <- <-];
      (split; [eauto|]); solve_not_elem. }
  unfold call at 1. destruct (env _ ONewContext) as [m|[]].
  { unfold call. destruct (env _ OStop) as [m'|[]]; intros [= <- <-];
      (split; [eauto|]); solve_not_elem. }
  unfold call at 1. destruct (env _ ONewPage) as [m|[]].
  { unfold call. destruct (env _ OStop) as [m'|[]]; intros [= <- <-];
      (split; [eauto|]); solve_not_elem. }
  match goal with |- context [try_except ?b ?f ?h] =>
    destruct (try_except b f h) as [h1 r1] eqn:E end.
  destruct (emits_guarded_body _ _ _ _ _ E) as (t & -> & F).
  assert (Ht : ∀ ok, Ev OBrowserClose ok ∉ t).
  { intros ok Hin. rewrite Forall_forall in F. apply F in Hin. discriminate. }
  unfold teardown, bind, sleep, call.
  match goal with |- context [env ?h OContextClose] =>
    destruct (Hc h) as [m ->] end.
  destruct (env _ OStop) as [m'|[]]; intros [= <- <-];
    (split; [eauto|]); intros ok H; specialize (Ht ok); split_elem H.
Qed.

End SessionFacts.

Section StepFacts.

Context {rt : Runtime}.

(** X6: an action without [type], or whose handler does not find the first
    key it reads, makes no call on the page: its step fails with the quoted
    name of the missing key as error, after the diagnostic screenshot. *)
Theorem missing_key_fails_the_step (a : action) h :
  let fails_with key :=
    ∃ ok shot,
      exec_step a h
      = (h ++ [Ev step_shot ok],
         inr (inr (StepResult a false (Some ("'" +:+ key +:+ "'")) shot))) in
  (a !! "type" = None → fails_with "type")
  ∧ (∀ kind key,
       (kind, key) ∈ first_keys →
       a !! "type" = Some (JStr kind) →
       a !! key = None →
       fails_with key).
Proof.
  cbv zeta. split.
  - intros Ht. unfold exec_step, try_except, bind, dispatch, getitem, bind, raise.
    rewrite Ht. cbn. unfold call.
    destruct (env h (OScreenshot (Some "png") false));
      eexists _, _; reflexivity.
  - intros kind key Hin Ht Hk. unfold first_keys in Hin.
    repeat (apply elem_of_cons in Hin as [Hin|Hin];
            [injection Hin as -> ->|]); [..|now apply elem_of_nil in Hin];
      unfold exec_step, try_except, bind, dispatch, getitem, bind, raise;
      rewrite Ht; cbn; rewrite Hk; cbn; unfold call;
      destruct (env h (OScreenshot (Some "png") false));
      eexists _, _; reflexivity.
Qed.

(** X7: [click], [fill] and [press] never act on an element that did not
    become visible: when the wait for the selector raises, the step fails
    with the driver's message and no click, fill or key press is sent. *)
Theorem no_interaction_without_visible_element (a : action) kind s msg h :
  kind ∈ selector_kinds →
  a !! "type" = Some (JStr kind) →
  a !! "selector" = Some s →
  env h (wait_visible s) = inl msg →
  ∃ ok shot,
    exec_step a h
    = (h ++ [Ev (wait_visible s) false; Ev step_shot ok],
       inr (inr (StepResult a false (Some msg) shot))).
Proof.
  intros Hin Ht Hs Hw. unfold selector_kinds in Hin. unfold wait_visible in Hw.
  repeat (apply elem_of_cons in Hin as [->|Hin]); [..|now apply elem_of_nil in Hin];
    unfold exec_step, try_except, bind, dispatch, getitem, bind;
    rewrite Ht; cbn; rewrite Hs; cbn; unfold call at 1; rewrite Hw;
    unfold call;
    destruct (env _ (OScreenshot (Some "png") false));
    eexists _, _; rewrite <- app_assoc; reflexivity.
Qed.

(** X8: the steps are lost when the final screenshot raises: even if every
    action ran, the executor returns a failure response without steps whose
    message carries the error of the screenshot. *)
Theorem final_screenshot_failure_drops_steps (actions : list action)
    starting_url msg :
  never_raises session_op →
  never_raises start_nav_op →
  Forall (λ a, is_like_post a = false) actions →
  (∀ h, env h final_shot = inl msg) →
  ∃ tr shot,
    execute_actions actions starting_url [] =
      (tr, inr (RModel (MkResponse false ("Automation failed: " +:+ msg)
                                   None shot))).
Proof.
  intros S N Hl Hf.
  destruct (initial_navigation_returns starting_url session_open N) as [h1 E1].
  destruct (run_loop_steps actions Hl [] h1) as (h2 & steps & E2 & _).
  assert (E : ∃ h3 shot,
    try_except (try_body actions starting_url) fatal_handler session_open
    = (h3, inr (RModel (MkResponse false ("Automation failed: " +:+ msg)
                                   None shot)))).
  { unfold try_except at 1, try_body, bind. rewrite E1, E2.
    rewrite (call_raises _ (OScreenshot (Some "png") true) _ (Hf h2)).
    unfold fatal_handler, try_except, bind, call.
    destruct (env _ (OScreenshot (Some "png") false)); eexists _, _; reflexivity. }
  destruct E as (h3 & shot & E).
  exists (h3 ++ session_close), shot. now apply execute_actions_session.
Qed.


End StepFacts.

Section LikeFacts.

Context {rt : Runtime}.

(** With the feed loaded and a non-empty list of posts, the handler goes on
    to compute the index, pick the post and work on it. *)
Lemma like_post_try_selects (a : action) h (posts : list handle) :
  env h wait_feed = inr tt →
  env (h ++ [Ev wait_feed true]) find_posts = inr posts →
  posts ≠ [] →
  like_post_try a h
  = (i <- py_minus_1 (default (JInt 1) (a !! "index")) ;;
     post <- py_list_get posts (Z.min i (Z.of_nat (length posts) - 1)) ;;
     like_on_post post) (h ++ [Ev wait_feed true; Ev find_posts true]).
Proof.
  unfold wait_feed, find_posts. intros E1 E2 Hne.
  unfold like_post_try. unfold bind at 1 2.
  rewrite (call_returns _ _ _ E1), (call_returns _ _ _ E2).
  destruct posts; [congruence|]. now rewrite <- app_assoc.
Qed.

Lemma py_list_get_nonneg {A} (l : list A) (i : Z) x h :
  0 ≤ i → l !! Z.to_nat i = Some x → py_list_get l i h = (h, inr x).
Proof.
  intros Hi Hx. unfold py_list_get.
  assert (Z.to_nat i < length l)%nat by (eapply lookup_lt_Some, Hx).
  replace (i <? 0) with false by lia.
  replace (0 <=? i) with true by lia.
  replace (i <? Z.of_nat (length l)) with true by lia.
  cbn [andb]. now rewrite Hx.
Qed.

Lemma py_list_get_negative {A} (l : list A) (i : Z) x h :
  - Z.of_nat (length l) ≤ i < 0 →
  l !! Z.to_nat (Z.of_nat (length l) + i) = Some x →
  py_list_get l i h = (h, inr x).
Proof.
  intros Hi Hx. unfold py_list_get.
  replace (i <? 0) with true by lia.
  replace (0 <=? i + Z.of_nat (length l)) with true by lia.
  replace (i + Z.of_nat (length l) <? Z.of_nat (length l)) with true by lia.
  cbn [andb]. replace (i + Z.of_nat (length l)) with (Z.of_nat (length l) + i) by lia.
  now rewrite Hx.
Qed.

Lemma py_list_get_out_of_range {A} (l : list A) (i : Z) h :
  i < - Z.of_nat (length l) ∨ Z.of_nat (length l) ≤ i →
  py_list_get l i h = (h, inl (IndexError "list index out of range")).
Proof.
  intros Hi. unfold py_list_get. cbv zeta.
  destruct (Z.ltb_spec i 0) as [Hneg|Hneg].
  - replace (0 <=? i + Z.of_nat (length l)) with false by lia. reflexivity.
  - replace (i <? Z.of_nat (length l)) with false by lia.
    now rewrite andb_false_r.
Qed.

(** X10: an [index] between 1 and the number of posts selects the post at
    that 1-based position; a missing [index] counts as 1, the first post. *)
Theorem like_post_index_in_range (a : action) h (posts : list handle) i :
  env h wait_feed = inr tt →
  env (h ++ [Ev wait_feed true]) find_posts = inr posts →
  a !! "index" = Some (JInt i) ∨ (a !! "index" = None ∧ i = 1) →
  1 ≤ i ≤ Z.of_nat (length posts) →
  ∃ target,
    posts !! Z.to_nat (i - 1) = Some target
    ∧ like_post_try a h
      = like_on_post target (h ++ [Ev wait_feed true; Ev find_posts true]).
Proof.
  intros E1 E2 Hi Hr.
  assert (Hne : posts ≠ []) by (destruct posts; [cbn in Hr; lia | done]).
  destruct (lookup_lt_is_Some_2 posts (Z.to_nat (i - 1))) as [target Ht];
    [lia|].
  exists target. split; [exact Ht|].
  rewrite (like_post_try_selects _ _ _ E1 E2 Hne).
  assert (D : default (JInt 1) (a !! "index") = JInt i).
  { destruct Hi as [-> | [-> ->]]; reflexivity. }
  rewrite D. unfold bind. cbn [py_minus_1 ret].
  replace (Z.min (i - 1) (Z.of_nat (length posts) - 1)) with (i - 1) by lia.
  rewrite (py_list_get_nonneg posts (i - 1) target); [reflexivity|lia|exact Ht].
Qed.

(** X11: an [index] of 0 or below is not rejected: it counts from the end of
    the feed as a negative Python index does, so that 0 selects the last
    post, -1 the one before it, down to the first post. *)
Theorem like_post_index_wraps_around (a : action) h (posts : list handle) i :
  env h wait_feed = inr tt →
  env (h ++ [Ev wait_feed true]) find_posts = inr posts →
  a !! "index" = Some (JInt i) →
  1 - Z.of_nat (length posts) ≤ i ≤ 0 →
  ∃ target,
    posts !! Z.to_nat (Z.of_nat (length posts) + i - 1) = Some target
    ∧ (i = 0 → last posts = Some target)
    ∧ like_post_try a h
      = like_on_post target (h ++ [Ev wait_feed true; Ev find_posts true]).
Proof.
  intros E1 E2 Hi Hr.
  assert (Hne : posts ≠ []) by (destruct posts; [cbn in Hr; lia | done]).
  destruct (lookup_lt_is_Some_2 posts
              (Z.to_nat (Z.of_nat (length posts) + i - 1))) as [target Ht];
    [lia|].
  exists target. split; [exact Ht|]. split.
  - intros ->. rewrite last_lookup, <- Ht. f_equal. lia.
  - rewrite (like_post_try_selects _ _ _ E1 E2 Hne).
    rewrite Hi. unfold bind. cbn [from_option id py_minus_1 ret].
    replace (Z.min (i - 1) (Z.of_nat (length posts) - 1)) with (i - 1) by lia.
    rewrite (py_list_get_negative posts (i - 1) target); [reflexivity|lia|].
    rewrite <- Ht. f_equal. lia.
Qed.

(** X12: an [index] at or below minus the number of posts ends in the
    failure dict with the message of the [IndexError]; apart from the
    diagnostic screenshot no further call is made, no post is touched. *)
Theorem like_post_index_below_range_fails (a : action) h
    (posts : list handle) i b :
  let h2 := h ++ [Ev wait_feed true; Ev find_posts true] in
  env h wait_feed = inr tt →
  env (h ++ [Ev wait_feed true]) find_posts = inr posts →
  posts ≠ [] →
  a !! "index" = Some (JInt i) →
  i ≤ - Z.of_nat (length posts) →
  env h2 like_shot = inr b →
  like_post a h
  = (h2 ++ [Ev like_shot true],
     inr (LikeResult false "list index out of range"
            (DebugError "list index out of range" (Some (b64encode b))))).
Proof.
  intros h2 E1 E2 Hne Hi Hr Hs. subst h2.
  unfold like_post, try_except.
  rewrite (like_post_try_selects _ _ _ E1 E2 Hne).
  rewrite Hi. unfold bind at 1 2. cbn [from_option id py_minus_1 ret].
  replace (Z.min (i - 1) (Z.of_nat (length posts) - 1)) with (i - 1) by lia.
  rewrite py_list_get_out_of_range by lia.
  unfold bind. unfold like_shot in Hs. now rewrite (call_returns _ _ _ Hs).
Qed.


(** X14: on a feed without posts the handler ends in the failure dict "No
    posts found", having made only the two feed queries and the
    screenshot. *)
Theorem like_post_on_empty_feed (a : action) h b :
  let h2 := h ++ [Ev wait_feed true; Ev find_posts true] in
  let msg := "No posts found - may need different selectors" in
  env h wait_feed = inr tt →
  env (h ++ [Ev wait_feed true]) find_posts = inr [] →
  env h2 like_shot = inr b →
  like_post a h
  = (h2 ++ [Ev like_shot true],
     inr (LikeResult false msg (DebugError msg (Some (b64encode b))))).
Proof.
  intros h2 msg E1 E2 Hs. subst h2 msg.
  unfold wait_feed, find_posts, like_shot in *.
  unfold like_post, try_except, like_post_try. unfold bind at 1 2 3.
  rewrite (call_returns _ _ _ E1), (call_returns _ _ _ E2).
  cbn [raise]. rewrite <- app_assoc. cbn [app].
  unfold bind. now rewrite (call_returns _ _ _ Hs).
Qed.

(** X15: when neither the primary nor the fallback selector finds a button
    in the post, the work on the post ends with "Like button not found"
    after the scroll, the pause and the two queries: nothing is clicked. *)
Theorem like_button_not_found (post : handle) h :
  let h1 := h ++ [Ev (OScrollIntoView post) true] in
  let h2 := h1 ++ [Ev (OWaitForTimeout (JInt 2000)) true] in
  let h3 := h2 ++ [Ev (OQuerySelector post primary_like_selector) true] in
  let h4 := h3 ++ [Ev (OQuerySelector post fallback_like_selector) true] in
  env h (OScrollIntoView post) = inr tt →
  env h1 (OWaitForTimeout (JInt 2000)) = inr tt →
  env h2 (OQuerySelector post primary_like_selector) = inr None →
  env h3 (OQuerySelector post fallback_like_selector) = inr None →
  like_on_post post h = (h4, inl (PyException "Like button not found")).
Proof.
  intros h1 h2 h3 h4 E1 E2 E3 E4. subst h1 h2 h3 h4.
  unfold like_on_post. unfold bind at 1 2 3 4.
  rewrite (call_returns _ _ _ E1), (call_returns _ _ _ E2),
    (call_returns _ _ _ E3).
  unfold bind. now rewrite (call_returns _ _ _ E4).
Qed.

End LikeFacts.

(** * Further facts about the credential pass *)

Section MoreCredentialFacts.

Implicit Types (c : gmap string jval) (a : action) (plan : list action).

(** What one pass over an action may change: the [text] of a fill action,
    the [username] and [password] of a login action, nothing else. *)
Lemma substitute_action_frame c a a' :
  substitute_action c a = inr a' →
  (∀ k, k ≠ "text" → k ≠ "username" → k ≠ "password" → a' !! k = a !! k)
  ∧ (match a !! "type" with
     | Some t => is_str t "fill" = false ∧ is_str t "login" = false
     | None => True
     end → a' = a).
Proof.
  unfold substitute_action.
  destruct (a !! "type") as [ty|]; [|discriminate].
  destruct (is_str ty "fill") eqn:Hf.
  - intros E. split; [|intros [? _]; discriminate].
    intros k H1 H2 H3. assert ("text" ≠ k) by congruence.
    destruct (text_is a "YOUR_USERNAME").
    { injection E as <-. now apply lookup_insert_ne. }
    destruct (a !! "selector") as [[| | |sel| |]|]; try discriminate.
    destruct (_ || _); injection E as <-;
      [now apply lookup_insert_ne | reflexivity].
  - destruct (is_str ty "login") eqn:Hl; cbn [andb].
    + intros E. split; [|intros [_ ?]; discriminate].
      intros k H1 H2 H3.
      assert ("username" ≠ k) by congruence.
      assert ("password" ≠ k) by congruence.
      destruct (bool_decide _); injection E as <-; [|reflexivity].
      rewrite lookup_insert_ne by assumption. now apply lookup_insert_ne.
    + intros [= <-]. split; reflexivity.
Qed.

Lemma substitute_all_length c plan plan' :
  substitute_all c plan = inr plan' → length plan' = length plan.
Proof.
  revert plan'. induction plan as [|x plan IH]; intros plan'; cbn [substitute_all].
  - now intros [= <-].
  - destruct (substitute_action c x); [discriminate|].
    destruct (substitute_all c plan); [discriminate|].
    intros [= <-]. cbn. f_equal. now apply IH.
Qed.

(** X17: the pass keeps the plan's shape: the same number of actions in
    the same order, and in each action every key other than [text],
    [username] and [password] with its value, so also its [type]; an action
    that is neither a fill nor a login is left as it is. *)
Theorem substitution_keeps_the_plan_shape
    (credentials : option (gmap string jval)) plan plan' :
  substitute_credentials credentials plan = inr plan' →
  length plan' = length plan
  ∧ ∀ i a, plan !! i = Some a →
      ∃ a', plan' !! i = Some a'
        ∧ (∀ k, k ≠ "text" → k ≠ "username" → k ≠ "password" →
                a' !! k = a !! k)
        ∧ (match a !! "type" with
           | Some t => is_str t "fill" = false ∧ is_str t "login" = false
           | None => True
           end → a' = a).
Proof.
  intros E.
  assert (H : plan' = plan ∨ ∃ c, substitute_all c plan = inr plan').
  { unfold substitute_credentials in E. destruct credentials as [c|].
    - destruct (bool_decide (size c = 0%nat)); [left; congruence | eauto].
    - left. congruence. }
  destruct H as [-> | [c Ec]].
  - split; [reflexivity|]. intros i a Hi.
    exists a. split; [exact Hi|]. split; reflexivity.
  - split; [now apply substitute_all_length in Ec|].
    intros i a Hi.
    destruct (substitute_all_lookup _ _ _ _ _ Ec Hi) as (a' & Ea & La).
    exists a'. split; [exact La|]. now apply substitute_action_frame in Ea.
Qed.

(** The errors of the pass on one action. *)
Lemma substitute_action_errors c a e :
  substitute_action c a = inl e →
  (a !! "type" = None ∧ e = KeyError "type")
  ∨ (a !! "selector" = None ∧ e = KeyError "selector")
  ∨ (∃ v, a !! "selector" = Some v ∧ (∀ s, v ≠ JStr s)
          ∧ e = AttributeError ("'" +:+ py_type_name v
                                +:+ "' object has no attribute 'lower'")).
Proof.
  unfold substitute_action.
  destruct (a !! "type") as [ty|]; [|intros [= <-]; now left].
  destruct (is_str ty "fill").
  - destruct (text_is a "YOUR_USERNAME"); [discriminate|].
    destruct (a !! "selector") as [v|]; [|intros [= <-]; right; now left].
    destruct v; try (intros [= <-]; right; right; eexists; now repeat split).
    destruct (_ || _); discriminate.
  - destruct (_ && _); discriminate.
Qed.

(** X18: the pass fails exactly when one of its actions does, with the
    error of the first such action: a missing [type], or on a fill action
    that does not hold the username placeholder a missing [selector] or a
    [selector] that is not a string. *)
Theorem substitution_reports_the_first_error c plan e :
  substitute_all c plan = inl e
  ↔ ∃ i a, plan !! i = Some a
           ∧ substitute_action c a = inl e
           ∧ ∀ j b, (j < i)%nat → plan !! j = Some b →
                    ∃ b', substitute_action c b = inr b'.
Proof.
  revert e. induction plan as [|x plan IH]; intros e; cbn [substitute_all].
  - split; [discriminate | intros (i & a & Hi & _); discriminate].
  - destruct (substitute_action c x) as [ex|x'] eqn:Ex.
    + split.
      * intros [= ->]. exists 0%nat, x. split; [reflexivity|].
        split; [exact Ex|]. intros j b Hj. lia.
      * intros ([|i] & a & Hi & Ea & Hbefore).
        -- injection Hi as <-. congruence.
        -- destruct (Hbefore 0%nat x ltac:(lia) eq_refl) as [b' Eb]. congruence.
    + destruct (substitute_all c plan) as [er|rest'] eqn:Er.
      * split.
        -- intros [= ->].
           destruct (proj1 (IH e) eq_refl) as (i & a & Hi & Ea & Hbefore).
           exists (S i), a. split; [exact Hi|]. split; [exact Ea|].
           intros [|j] b Hj Hb; [injection Hb as <-; eauto|].
           apply (Hbefore j); [lia | exact Hb].
        -- intros ([|i] & a & Hi & Ea & Hbefore).
           ++ injection Hi as <-. congruence.
           ++ apply IH. exists i, a. split; [exact Hi|]. split; [exact Ea|].
              intros j b Hj Hb. apply (Hbefore (S j)); [lia | exact Hb].
      * split; [discriminate|].
        intros ([|i] & a & Hi & Ea & Hbefore).
        -- injection Hi as <-. congruence.
        -- exfalso. assert (G : @inr exn _ rest' = inl e); [|discriminate].
           apply IH. exists i, a. split; [exact Hi|]. split; [exact Ea|].
           intros j b Hj Hb. apply (Hbefore (S j)); [lia | exact Hb].
Qed.

Lemma prefix_iff (s1 s2 : string) :
  String.prefix s1 s2 = true ↔ ∃ suf, s2 = s1 +:+ suf.
Proof.
  revert s2. induction s1 as [|c s1 IH]; intros s2.
  - destruct s2; cbn; split; eauto.
  - destruct s2 as [|d s2]; cbn.
    + split; [discriminate | intros [suf [=]]].
    + destruct (ascii_dec c d) as [->|Hne].
      * rewrite IH. split; intros [suf E]; exists suf; [now rewrite E|].
        now injection E.
      * split; [discriminate|]. intros [suf E]. destruct Hne.
        cbn in E. now injection E.
Qed.

(** [contains] is the substring test. *)
Lemma contains_iff (needle hay : string) :
  contains needle hay = true ↔ ∃ pre suf, hay = pre +:+ needle +:+ suf.
Proof.
  induction hay as [|c hay IH]; cbn [contains].
  - rewrite orb_false_r, prefix_iff. split.
    + intros [suf E]. exists "", suf. exact E.
    + intros (pre & suf & E). destruct pre; [eauto | discriminate].
  - rewrite orb_true_iff, prefix_iff, IH. split.
    + intros [[suf E] | (pre & suf & E)].
      * exists "", suf. exact E.
      * exists (String c pre), suf. cbn. now rewrite E.
    + intros (pre & suf & E). destruct pre as [|d pre]; cbn in E.
      * left. eauto.
      * right. injection E as _ E. eauto.
Qed.

Lemma lower_app (s1 s2 : string) : lower (s1 +:+ s2) = lower s1 +:+ lower s2.
Proof.
  induction s1 as [|c s1 IH]; [reflexivity|].
  change (String (lower_ascii c) (lower (s1 +:+ s2))
          = String (lower_ascii c) (lower s1 +:+ lower s2)).
  now rewrite IH.
Qed.

Lemma lower_split (s x y : string) :
  lower s = x +:+ y → ∃ s1 s2, s = s1 +:+ s2 ∧ lower s1 = x ∧ lower s2 = y.
Proof.
  revert s. induction x as [|c x IH]; intros s E.
  - exists "", s. now repeat split.
  - destruct s as [|d s]; [discriminate|]. cbn in E. injection E as Hc E.
    destruct (IH _ E) as (s1 & s2 & -> & H1 & H2).
    exists (String d s1), s2. cbn. now rewrite Hc, H1.
Qed.

(** X19: the test of line 369 on the selector holds exactly when the
    selector contains eight consecutive characters that spell "password"
    in some letter case. *)
Theorem password_test_ignores_case (selector : string) :
  contains "password" (lower selector) = true
  ↔ ∃ pre w suf, selector = pre +:+ w +:+ suf ∧ lower w = "password".
Proof.
  rewrite contains_iff. split.
  - intros (x & y & E).
    apply lower_split in E as (pre & rest & -> & _ & E).
    apply lower_split in E as (w & suf & -> & Hw & _). eauto.
  - intros (pre & w & suf & -> & Hw).
    exists (lower pre), (lower suf). now rewrite !lower_app, Hw.
Qed.

End MoreCredentialFacts.

Section LoginFacts.

Context {rt : Runtime}.

(** X20: after the pass a login action with its three selectors types the
    supplied credentials (the empty string for one that is not supplied):
    with a driver that does not raise, its handler waits for and fills the
    username field, then the password field, then waits for and clicks the
    submit button. *)
Theorem login_types_the_credentials (c : gmap string jval) (a a' : action)
    us ps ss h :
  never_raises (λ _, true) →
  a !! "type" = Some (JStr "login") →
  a !! "username_selector" = Some us →
  a !! "password_selector" = Some ps →
  a !! "submit_selector" = Some ss →
  substitute_action c a = inr a' →
  dispatch a' h
  = (h ++ [Ev (wait_visible us) true; Ev (OFill us (cred c "username")) true;
           Ev (wait_visible ps) true; Ev (OFill ps (cred c "password")) true;
           Ev (wait_visible ss) true; Ev (OClick ss) true],
     inr None).
Proof.
  intros R Ht Hu Hp Hs E.
  unfold substitute_action in E. rewrite Ht, Hu in E. cbn in E.
  injection E as <-.
  set (a' := <["password":=cred c "password"]>
               (<["username":=cred c "username"]> a)).
  assert (Lt : a' !! "type" = Some (JStr "login"))
    by (subst a'; now rewrite !lookup_insert_ne).
  assert (Lus : a' !! "username_selector" = Some us)
    by (subst a'; now rewrite !lookup_insert_ne).
  assert (Lps : a' !! "password_selector" = Some ps)
    by (subst a'; now rewrite !lookup_insert_ne).
  assert (Lss : a' !! "submit_selector" = Some ss)
    by (subst a'; now rewrite !lookup_insert_ne).
  assert (Lu : a' !! "username" = Some (cred c "username"))
    by (subst a'; now rewrite lookup_insert_ne, lookup_insert_eq).
  assert (Lp : a' !! "password" = Some (cred c "password"))
    by (subst a'; now rewrite lookup_insert_eq).
  clearbody a'.
  unfold dispatch, bind at 1, getitem at 1. rewrite Lt. cbn.
  unfold getitem. rewrite Lus, Lps, Lss, Lu, Lp.
  unfold bind, ret, wait_visible.
  repeat match goal with
  | |- context [call ?o ?h0] =>
    let H := fresh in
    destruct (call_never_raises _ h0 o R eq_refl) as [[] H]; rewrite H; clear H
  end.
  rewrite <- !app_assoc. reflexivity.
Qed.

(** X21: a login action that did not go through the pass has no [username]:
    its step fails with the error 'username' once the username field is
    visible, and nothing is typed. *)
Theorem login_without_credentials_fails (a : action) us h :
  a !! "type" = Some (JStr "login") →
  a !! "username_selector" = Some us →
  a !! "username" = None →
  env h (wait_visible us) = inr tt →
  ∃ ok shot,
    exec_step a h
    = (h ++ [Ev (wait_visible us) true; Ev step_shot ok],
       inr (inr (StepResult a false (Some "'username'") shot))).
Proof.
  intros Ht Hu Hn Hw. unfold wait_visible in Hw.
  unfold exec_step, try_except, bind, dispatch, getitem, bind.
  rewrite Ht. cbn. rewrite Hu. cbn. rewrite (call_returns _ _ _ Hw).
  rewrite Hn. cbn. unfold call.
  destruct (env _ (OScreenshot (Some "png") false));
    eexists _, _; rewrite <- app_assoc; reflexivity.
Qed.

End LoginFacts.

(** * Facts about the endpoint *)

Section FenceFacts.

Lemma contains_cons_false (needle : string) c (s : string) :
  contains needle (String c s) = false →
  String.prefix needle (String c s) = false ∧ contains needle s = false.
Proof. cbn [contains]. now rewrite orb_false_iff. Qed.

Lemma not_backtick c (s : string) :
  String.prefix "`" (String c s) = false → c ≠ "`"%char.
Proof.
  intros E ->. cbn in E. destruct s; discriminate.
Qed.

Lemma prefix_other_head (needle : string) c d (s : string) :
  c ≠ d → String.prefix (String d needle) (String c s) = false.
Proof.
  intros Hne. cbn. destruct (ascii_dec d c) as [->|]; [contradiction|reflexivity].
Qed.

(** Text without a backtick is copied by the scan. *)
Lemma remove_fences_from_plain (s rest : string) :
  contains "`" s = false →
  remove_fences_from 0 (s +:+ rest) = s +:+ remove_fences_from 0 rest.
Proof.
  induction s as [|c s IH]; [reflexivity|].
  intros [Hc Hs]%contains_cons_false. apply not_backtick in Hc.
  change (String c s +:+ rest) with (String c (s +:+ rest)).
  cbn [remove_fences_from].
  rewrite !prefix_other_head by exact Hc.
  change (String c s +:+ remove_fences_from 0 rest)
    with (String c (s +:+ remove_fences_from 0 rest)).
  now rewrite IH.
Qed.

Lemma append_empty_r (s : string) : s +:+ "" = s.
Proof.
  induction s as [|c s IH]; [reflexivity|].
  change (String c (s +:+ "") = String c s). now rewrite IH.
Qed.

Lemma append_assoc (s1 s2 s3 : string) :
  (s1 +:+ s2) +:+ s3 = s1 +:+ s2 +:+ s3.
Proof.
  induction s1 as [|c s1 IH]; [reflexivity|].
  change (String c ((s1 +:+ s2) +:+ s3) = String c (s1 +:+ s2 +:+ s3)).
  now rewrite IH.
Qed.

Lemma remove_fences_from_0_cons c (rest : string) :
  remove_fences_from 0 (String c rest)
  = if String.prefix "```json" (String c rest) then remove_fences_from 6 rest
    else if String.prefix "```" (String c rest) then remove_fences_from 2 rest
    else String c (remove_fences_from 0 rest).
Proof. reflexivity. Qed.

(** The characters of a match are dropped. *)
Lemma remove_fences_from_skip (s rest : string) :
  remove_fences_from (String.length s) (s +:+ rest) = remove_fences_from 0 rest.
Proof.
  induction s as [|c s IH]; [reflexivity|].
  change (String c s +:+ rest) with (String c (s +:+ rest)).
  cbn [String.length remove_fences_from]. exact IH.
Qed.

Lemma remove_opening_fence (rest : string) :
  remove_fences_from 0 ("```json" +:+ rest) = remove_fences_from 0 rest.
Proof.
  change ("```json" +:+ rest) with (String "`" ("``json" +:+ rest)).
  rewrite remove_fences_from_0_cons.
  assert (P : String.prefix "```json" (String "`" ("``json" +:+ rest)) = true)
    by (apply prefix_iff; now exists rest).
  rewrite P. apply (remove_fences_from_skip "``json").
Qed.

Lemma remove_closing_fence (rest : string) :
  String.prefix "json" rest = false →
  remove_fences_from 0 ("```" +:+ rest) = remove_fences_from 0 rest.
Proof.
  intros Hj.
  change ("```" +:+ rest) with (String "`" ("``" +:+ rest)).
  rewrite remove_fences_from_0_cons.
  assert (P : String.prefix "```json" (String "`" ("``" +:+ rest)) = false).
  { apply not_true_iff_false. intros [suf E]%prefix_iff.
    apply not_true_iff_false in Hj. apply Hj, prefix_iff.
    exists suf. now injection E. }
  assert (Q : String.prefix "```" (String "`" ("``" +:+ rest)) = true)
    by (apply prefix_iff; now exists rest).
  rewrite P, Q. apply (remove_fences_from_skip "``").
Qed.

(** X22: the cleaning of line 104 removes the fences of a fenced block and
    nothing else: for texts without backticks around and inside a block
    opened by three backticks and the word json and closed by three
    backticks, the result is the text before, the body and the text after
    (which must not start with the letters json, or these go with the
    closing fence). *)
Theorem remove_fences_unwraps_a_block (pre body post : string) :
  contains "`" pre = false →
  contains "`" body = false →
  contains "`" post = false →
  String.prefix "json" post = false →
  remove_fences (pre +:+ "```json" +:+ body +:+ "```" +:+ post)
  = pre +:+ body +:+ post.
Proof.
  intros Hpre Hbody Hpost Hj. unfold remove_fences.
  rewrite (remove_fences_from_plain pre) by exact Hpre. f_equal.
  rewrite remove_opening_fence.
  rewrite (remove_fences_from_plain body) by exact Hbody. f_equal.
  rewrite remove_closing_fence by exact Hj.
  rewrite <- (append_empty_r post) at 1.
  rewrite (remove_fences_from_plain post "") by exact Hpost.
  apply append_empty_r.
Qed.

(** X23: a response that holds no run of three backticks is not changed by
    the cleaning of line 104. *)
Theorem remove_fences_without_fence (s : string) :
  contains "```" s = false → remove_fences s = s.
Proof.
  unfold remove_fences. induction s as [|c s IH]; [reflexivity|].
  intros [Hp Hs]%contains_cons_false. rewrite remove_fences_from_0_cons.
  replace (String.prefix "```json" (String c s)) with false.
  2:{ symmetry. apply not_true_iff_false. intros [suf E]%prefix_iff.
      apply not_true_iff_false in Hp. apply Hp, prefix_iff.
      exists ("json" +:+ suf). rewrite E. reflexivity. }
  rewrite Hp. now rewrite IH.
Qed.

End FenceFacts.

Section EndpointFacts.

Context {rt : Runtime} {ip : Interpreter}.

(** The two errors of [interpret_command]. *)
Lemma interpret_command_errors (natural_language : string) e :
  interpret_command natural_language = inl e →
  e = HTTPException 500 "Failed to parse command response"
  ∨ e = HTTPException 500 "Command interpretation failed".
Proof.
  unfold interpret_command. cbv zeta.
  destruct (chat_completion natural_language) as [| |[content|]];
    try (intros [= <-]; eauto).
  destruct (json_loads _); intros [= <-]; eauto.
Qed.

Lemma substitute_all_failed (c : gmap string jval) (plan : list action) e :
  substitute_all c plan = inl e →
  ∃ a, a ∈ plan ∧ substitute_action c a = inl e.
Proof.
  induction plan as [|x plan IH]; cbn [substitute_all]; [discriminate|].
  destruct (substitute_action c x) as [ex|x'] eqn:Ex.
  - intros [= ->]. exists x. split; [constructor | exact Ex].
  - destruct (substitute_all c plan) as [er|rest']; [|discriminate].
    intros [= ->]. destruct (IH eq_refl) as (a & Ha & Ea).
    exists a. split; [now constructor | exact Ea].
Qed.

Lemma substitute_credentials_errors (c : option (gmap string jval))
    (plan : list action) e :
  substitute_credentials c plan = inl e →
  ∃ detail, exn_str e = detail ∧ ∀ status d, e ≠ HTTPException status d.
Proof.
  unfold substitute_credentials.
  destruct c as [c|]; [|discriminate].
  destruct (bool_decide _); [discriminate|].
  intros (a & _ & Ea)%substitute_all_failed.
  apply substitute_action_errors in Ea
    as [[_ ->] | [[_ ->] | (v & _ & _ & ->)]];
    eexists; split; try reflexivity; discriminate.
Qed.



End EndpointFacts.

(** * Runs of the further facts on the sample drivers *)

Section MoreRuns.

Import Sample Scenario.

Ltac solve_returns :=
  intros h o Ho; destruct o; cbn in Ho; try discriminate Ho;
  eexists; reflexivity.

Lemma response_shape_witness :
  @execute_actions rt_click_fails plan_mixed (Some start_url) []
    = (fst run_mixed, inr (RModel response_mixed))
  ∧ ((success response_mixed = true
      ∧ message response_mixed = "Automation completed"
      ∧ ∃ steps shot,
          data response_mixed = Some steps
          ∧ screenshot response_mixed = Some (@data_url rt_click_fails shot)
          ∧ sr_action <$> steps = plan_mixed
          ∧ Forall step_ok steps)
     ∨ (success response_mixed = false
        ∧ data response_mixed = None
        ∧ ∃ m, message response_mixed = "Automation failed: " +:+ m)).
Proof.
  assert (E : @execute_actions rt_click_fails plan_mixed (Some start_url) []
              = (fst run_mixed, inr (RModel response_mixed)))
    by (vm_compute; reflexivity).
  split; [exact E|].
  exact (response_shape (rt := rt_click_fails) plan_mixed (Some start_url)
           (fst run_mixed) response_mixed E).
Defined.

Lemma dict_result_shape_witness :
  @execute_actions rt_ok plan_click_like None []
    = (fst run_click_like, inr (RDict liked))
  ∧ (∃ a, a ∈ plan_click_like ∧ is_like_post a = true)
  ∧ like_shape liked.
Proof.
  assert (E : @execute_actions rt_ok plan_click_like None []
              = (fst run_click_like, inr (RDict liked)))
    by (vm_compute; reflexivity).
  split; [exact E|].
  exact (dict_result_shape (rt := rt_ok) plan_click_like None
           (fst run_click_like) liked E).
Defined.

Lemma page_calls_stay_inside_the_session_witness :
  @never_raises rt_click_fails session_op
  ∧ ∃ t r,
      @execute_actions rt_click_fails plan_mixed (Some start_url) []
        = (session_open ++ t ++ session_close, inr r)
      ∧ Forall (λ e, page_op (ev_op e) = true) t.
Proof.
  assert (S : @never_raises rt_click_fails session_op) by solve_returns.
  split; [exact S|].
  exact (page_calls_stay_inside_the_session (rt := rt_click_fails)
           plan_mixed (Some start_url) S).
Defined.

Lemma only_session_errors_escape_witness :
  @execute_actions rt_launch_fails plan_mixed None []
    = (fst run_launch_fails, inl (DriverError "Executable doesn't exist"))
  ∧ ∃ o msg,
      session_op o = true
      ∧ DriverError "Executable doesn't exist" = DriverError msg
      ∧ Ev o false ∈ fst run_launch_fails.
Proof.
  assert (E : @execute_actions rt_launch_fails plan_mixed None []
              = (fst run_launch_fails,
                 inl (DriverError "Executable doesn't exist")))
    by (vm_compute; reflexivity).
  split; [exact E|].
  exact (only_session_errors_escape (rt := rt_launch_fails) plan_mixed None
           (fst run_launch_fails) _ E).
Defined.

Lemma browser_left_open_when_context_close_raises_witness :
  (∀ h, ∃ msg, @env rt_close_fails h OContextClose = inl msg)
  ∧ @execute_actions rt_close_fails plan_mixed None []
    = (fst run_close_fails, snd run_close_fails)
  ∧ (∃ e, snd run_close_fails = inl e)
  ∧ ∀ ok, Ev OBrowserClose ok ∉ fst run_close_fails.
Proof.
  assert (C : ∀ h, ∃ msg, @env rt_close_fails h OContextClose = inl msg)
    by (intros h; eexists; reflexivity).
  assert (E : @execute_actions rt_close_fails plan_mixed None []
              = (fst run_close_fails, snd run_close_fails))
    by (vm_compute; reflexivity).
  split; [exact C|]. split; [exact E|].
  exact (browser_left_open_when_context_close_raises (rt := rt_close_fails)
           plan_mixed None (fst run_close_fails) (snd run_close_fails) C E).
Defined.

Lemma missing_key_fails_the_step_witness :
  ("click", "selector") ∈ first_keys
  ∧ click_nothing !! "type" = Some (JStr "click")
  ∧ click_nothing !! "selector" = None
  ∧ ∃ ok shot,
      @exec_step rt_ok click_nothing session_open
      = (session_open ++ [Ev step_shot ok],
         inr (inr (StepResult click_nothing false
                     (Some ("'" +:+ "selector" +:+ "'")) shot))).
Proof.
  assert (K : ("click", "selector") ∈ first_keys)
    by (unfold first_keys; rewrite !elem_of_cons; tauto).
  split; [exact K|]. split; [reflexivity|]. split; [reflexivity|].
  exact (proj2 (missing_key_fails_the_step (rt := rt_ok) click_nothing
                  session_open)
               "click" "selector" K eq_refl eq_refl).
Defined.

Lemma no_interaction_without_visible_element_witness :
  "click" ∈ selector_kinds
  ∧ click_x !! "type" = Some (JStr "click")
  ∧ click_x !! "selector" = Some (JStr "#x")
  ∧ @env rt_never_visible session_open (wait_visible (JStr "#x"))
    = inl "Timeout 10000ms exceeded"
  ∧ ∃ ok shot,
      @exec_step rt_never_visible click_x session_open
      = (session_open ++ [Ev (wait_visible (JStr "#x")) false; Ev step_shot ok],
         inr (inr (StepResult click_x false (Some "Timeout 10000ms exceeded")
                     shot))).
Proof.
  assert (K : "click" ∈ selector_kinds)
    by (unfold selector_kinds; rewrite !elem_of_cons; tauto).
  split; [exact K|]. do 3 (split; [reflexivity|]).
  exact (no_interaction_without_visible_element (rt := rt_never_visible)
           click_x "click" (JStr "#x") "Timeout 10000ms exceeded" session_open
           K eq_refl eq_refl eq_refl).
Defined.


Lemma final_screenshot_failure_drops_steps_witness :
  @never_raises rt_final_shot_fails session_op
  ∧ @never_raises rt_final_shot_fails start_nav_op
  ∧ Forall (λ a, is_like_post a = false) plan_mixed
  ∧ (∀ h, @env rt_final_shot_fails h final_shot = inl "Page is too large")
  ∧ ∃ tr shot,
      @execute_actions rt_final_shot_fails plan_mixed (Some start_url) [] =
        (tr, inr (RModel (MkResponse false
                            ("Automation failed: " +:+ "Page is too large")
                            None shot))).
Proof.
  assert (S : @never_raises rt_final_shot_fails session_op) by solve_returns.
  assert (N : @never_raises rt_final_shot_fails start_nav_op) by solve_returns.
  assert (L : Forall (λ a, is_like_post a = false) plan_mixed)
    by (repeat constructor).
  assert (F : ∀ h, @env rt_final_shot_fails h final_shot
                   = inl "Page is too large") by reflexivity.
  split; [exact S|]. split; [exact N|]. split; [exact L|]. split; [exact F|].
  exact (final_screenshot_failure_drops_steps (rt := rt_final_shot_fails)
           plan_mixed (Some start_url) "Page is too large" S N L F).
Defined.

Lemma like_post_index_in_range_witness :
  @env rt_ok session_open wait_feed = inr tt
  ∧ @env rt_ok (session_open ++ [Ev wait_feed true]) find_posts
    = inr [1; 2; 3]%nat
  ∧ (like_default !! "index" = Some (JInt 1)
     ∨ (like_default !! "index" = None ∧ 1 = 1))
  ∧ 1 ≤ 1 ≤ Z.of_nat (length [1; 2; 3]%nat)
  ∧ ∃ target,
      [1; 2; 3]%nat !! Z.to_nat (1 - 1) = Some target
      ∧ @like_post_try rt_ok like_default session_open
        = @like_on_post rt_ok target feed_found.
Proof.
  assert (I : like_default !! "index" = Some (JInt 1)
              ∨ (like_default !! "index" = None ∧ 1 = 1))
    by (right; split; reflexivity).
  assert (R : 1 ≤ 1 ≤ Z.of_nat (length [1; 2; 3]%nat)) by (cbn; lia).
  do 2 (split; [reflexivity|]). split; [exact I|]. split; [exact R|].
  exact (like_post_index_in_range (rt := rt_ok) like_default session_open
           [1; 2; 3]%nat 1 eq_refl eq_refl I R).
Defined.

Lemma like_post_index_wraps_around_witness :
  @env rt_ok session_open wait_feed = inr tt
  ∧ @env rt_ok (session_open ++ [Ev wait_feed true]) find_posts
    = inr [1; 2; 3]%nat
  ∧ like_zero !! "index" = Some (JInt 0)
  ∧ 1 - Z.of_nat (length [1; 2; 3]%nat) ≤ 0 ≤ 0
  ∧ ∃ target,
      [1; 2; 3]%nat !! Z.to_nat (Z.of_nat (length [1; 2; 3]%nat) + 0 - 1)
        = Some target
      ∧ (0 = 0 → last [1; 2; 3]%nat = Some target)
      ∧ @like_post_try rt_ok like_zero session_open
        = @like_on_post rt_ok target feed_found.
Proof.
  assert (R : 1 - Z.of_nat (length [1; 2; 3]%nat) ≤ 0 ≤ 0) by (cbn; lia).
  do 3 (split; [reflexivity|]). split; [exact R|].
  exact (like_post_index_wraps_around (rt := rt_ok) like_zero session_open
           [1; 2; 3]%nat 0 eq_refl eq_refl eq_refl R).
Defined.

Lemma like_post_index_below_range_fails_witness :
  @env rt_ok session_open wait_feed = inr tt
  ∧ @env rt_ok (session_open ++ [Ev wait_feed true]) find_posts
    = inr [1; 2; 3]%nat
  ∧ [1; 2; 3]%nat ≠ []
  ∧ like_far_below !! "index" = Some (JInt (-3))
  ∧ -3 ≤ - Z.of_nat (length [1; 2; 3]%nat)
  ∧ @env rt_ok feed_found like_shot = inr "PNG"
  ∧ @like_post rt_ok like_far_below session_open
    = (feed_found ++ [Ev like_shot true],
       inr (LikeResult false "list index out of range"
              (DebugError "list index out of range"
                 (Some (@b64encode rt_ok "PNG"))))).
Proof.
  assert (Hne : [1; 2; 3]%nat ≠ []) by discriminate.
  assert (R : -3 ≤ - Z.of_nat (length [1; 2; 3]%nat)) by (cbn; lia).
  do 2 (split; [reflexivity|]). split; [exact Hne|].
  split; [reflexivity|]. split; [exact R|]. split; [reflexivity|].
  exact (like_post_index_below_range_fails (rt := rt_ok) like_far_below
           session_open [1; 2; 3]%nat (-3) "PNG"
           eq_refl eq_refl Hne eq_refl R eq_refl).
Defined.


Lemma like_post_on_empty_feed_witness :
  @env rt_empty_feed session_open wait_feed = inr tt
  ∧ @env rt_empty_feed (session_open ++ [Ev wait_feed true]) find_posts = inr []
  ∧ @env rt_empty_feed feed_found like_shot = inr "PNG"
  ∧ @like_post rt_empty_feed like_first session_open
    = (feed_found ++ [Ev like_shot true],
       inr (LikeResult false "No posts found - may need different selectors"
              (DebugError "No posts found - may need different selectors"
                 (Some (@b64encode rt_empty_feed "PNG"))))).
Proof.
  do 3 (split; [reflexivity|]).
  exact (like_post_on_empty_feed (rt := rt_empty_feed) like_first
           session_open "PNG" eq_refl eq_refl eq_refl).
Defined.

Lemma like_button_not_found_witness :
  @env rt_no_button feed_found (OScrollIntoView 1%nat) = inr tt
  ∧ @env rt_no_button (feed_found ++ [Ev (OScrollIntoView 1%nat) true])
      (OWaitForTimeout (JInt 2000)) = inr tt
  ∧ @env rt_no_button
      ((feed_found ++ [Ev (OScrollIntoView 1%nat) true])
       ++ [Ev (OWaitForTimeout (JInt 2000)) true])
      (OQuerySelector 1%nat primary_like_selector) = inr None
  ∧ @env rt_no_button
      (((feed_found ++ [Ev (OScrollIntoView 1%nat) true])
        ++ [Ev (OWaitForTimeout (JInt 2000)) true])
       ++ [Ev (OQuerySelector 1%nat primary_like_selector) true])
      (OQuerySelector 1%nat fallback_like_selector) = inr None
  ∧ @like_on_post rt_no_button 1%nat feed_found
    = ((((feed_found ++ [Ev (OScrollIntoView 1%nat) true])
         ++ [Ev (OWaitForTimeout (JInt 2000)) true])
        ++ [Ev (OQuerySelector 1%nat primary_like_selector) true])
       ++ [Ev (OQuerySelector 1%nat fallback_like_selector) true],
       inl (PyException "Like button not found")).
Proof.
  do 4 (split; [reflexivity|]).
  exact (like_button_not_found (rt := rt_no_button) 1%nat feed_found
           eq_refl eq_refl eq_refl eq_refl).
Defined.

Lemma substitution_keeps_the_plan_shape_witness :
  substitute_credentials (Some creds_up) plan_login = inr plan_login_done
  ∧ length plan_login_done = length plan_login
  ∧ ∀ i a, plan_login !! i = Some a →
      ∃ a', plan_login_done !! i = Some a'
        ∧ (∀ k, k ≠ "text" → k ≠ "username" → k ≠ "password" →
                a' !! k = a !! k)
        ∧ (match a !! "type" with
           | Some t => is_str t "fill" = false ∧ is_str t "login" = false
           | None => True
           end → a' = a).
Proof.
  assert (P : substitute_credentials (Some creds_up) plan_login
              = inr plan_login_done) by (vm_compute; reflexivity).
  split; [exact P|].
  exact (substitution_keeps_the_plan_shape (Some creds_up) plan_login
           plan_login_done P).
Defined.

Lemma substitution_reports_the_first_error_witness :
  substitute_all creds_up plan_broken = inl (KeyError "type")
  ∧ ∃ i a, plan_broken !! i = Some a
           ∧ substitute_action creds_up a = inl (KeyError "type")
           ∧ ∀ j b, (j < i)%nat → plan_broken !! j = Some b →
                    ∃ b', substitute_action creds_up b = inr b'.
Proof.
  assert (P : substitute_all creds_up plan_broken = inl (KeyError "type"))
    by (vm_compute; reflexivity).
  split; [exact P|].
  exact (proj1 (substitution_reports_the_first_error creds_up plan_broken
                  (KeyError "type")) P).
Defined.

Lemma password_test_ignores_case_witness :
  (∃ pre w suf, "input[name='session_PassWord']" = pre +:+ w +:+ suf
                ∧ lower w = "password")
  ∧ contains "password" (lower "input[name='session_PassWord']") = true.
Proof.
  assert (W : ∃ pre w suf, "input[name='session_PassWord']" = pre +:+ w +:+ suf
                           ∧ lower w = "password").
  { exists "input[name='session_", "PassWord", "']". split; reflexivity. }
  split; [exact W|].
  exact (proj2 (password_test_ignores_case "input[name='session_PassWord']") W).
Defined.

Lemma login_types_the_credentials_witness :
  @never_raises rt_ok (λ _, true)
  ∧ login_form !! "type" = Some (JStr "login")
  ∧ login_form !! "username_selector" = Some (JStr "#user")
  ∧ login_form !! "password_selector" = Some (JStr "#pass")
  ∧ login_form !! "submit_selector" = Some (JStr "#go")
  ∧ substitute_action creds_up login_form = inr login_form_done
  ∧ @dispatch rt_ok login_form_done session_open
    = (session_open
       ++ [Ev (wait_visible (JStr "#user")) true;
           Ev (OFill (JStr "#user") (cred creds_up "username")) true;
           Ev (wait_visible (JStr "#pass")) true;
           Ev (OFill (JStr "#pass") (cred creds_up "password")) true;
           Ev (wait_visible (JStr "#go")) true;
           Ev (OClick (JStr "#go")) true],
       inr None).
Proof.
  assert (R : @never_raises rt_ok (λ _, true))
    by (intros h o _; destruct o; eexists; reflexivity).
  assert (P : substitute_action creds_up login_form = inr login_form_done)
    by (vm_compute; reflexivity).
  split; [exact R|]. do 4 (split; [reflexivity|]). split; [exact P|].
  exact (login_types_the_credentials (rt := rt_ok) creds_up login_form
           login_form_done (JStr "#user") (JStr "#pass") (JStr "#go")
           session_open R eq_refl eq_refl eq_refl eq_refl P).
Defined.

Lemma login_without_credentials_fails_witness :
  login_form !! "type" = Some (JStr "login")
  ∧ login_form !! "username_selector" = Some (JStr "#user")
  ∧ login_form !! "username" = None
  ∧ @env rt_ok session_open (wait_visible (JStr "#user")) = inr tt
  ∧ ∃ ok shot,
      @exec_step rt_ok login_form session_open
      = (session_open ++ [Ev (wait_visible (JStr "#user")) true;
                          Ev step_shot ok],
         inr (inr (StepResult login_form false (Some "'username'") shot))).
Proof.
  do 4 (split; [reflexivity|]).
  exact (login_without_credentials_fails (rt := rt_ok) login_form
           (JStr "#user") session_open eq_refl eq_refl eq_refl eq_refl).
Defined.

Lemma remove_fences_unwraps_a_block_witness :
  contains "`" "Here is the plan: " = false
  ∧ contains "`" "{plan}" = false
  ∧ contains "`" " Done." = false
  ∧ String.prefix "json" " Done." = false
  ∧ remove_fences ("Here is the plan: " +:+ "```json" +:+ "{plan}" +:+ "```"
                   +:+ " Done.")
    = "Here is the plan: " +:+ "{plan}" +:+ " Done.".
Proof.
  do 4 (split; [reflexivity|]).
  exact (remove_fences_unwraps_a_block "Here is the plan: " "{plan}" " Done."
           eq_refl eq_refl eq_refl eq_refl).
Defined.

Lemma remove_fences_without_fence_witness :
  contains "```" "{plan} with `one` backtick pair" = false
  ∧ remove_fences "{plan} with `one` backtick pair"
    = "{plan} with `one` backtick pair".
Proof.
  split; [reflexivity|].
  exact (remove_fences_without_fence "{plan} with `one` backtick pair" eq_refl).
Defined.



End MoreRuns.
